(** * Layers of the pointer-generator network ([model/pgn/layers.py])

    A shallow embedding of the four Keras layers of the module, [Encoder],
    [Decoder], [Attention] and [Pointer], and the properties of their
    configuration, attention scoring, coverage and generation gate.

    Conventions of the embedding.
    - A TensorFlow tensor of rank [n] is a nested list, [tensor A n]; its
      entries are real numbers where the code computes in floating point, so
      a statement over [R] is about the exact arithmetic the code denotes.
      The generation gate is also given in the arithmetic of dtype float32
      ([Float32]), where the range of its output is decided.
      An empty axis is an empty list: the extents of the axes inside it are
      not recorded.
    - A Python exception is the [Raise] branch of [result]; the statements
      of a method are sequenced with [x <- c ;; k].
    - The weights a Keras [Dense] layer owns are fields of the layer.  *)

From Stdlib Require Import List Bool Arith Lia ZArith String Ascii.
From Stdlib Require Import Reals Lra.
Import ListNotations.

(** * The program *)

(** ** Python values the layers rely on *)

Module Py.

Inductive exn : Type :=
| Exception (msg : string)
| ValueError (msg : string)
| UnboundLocalError (name : string)
| InvalidArgumentError (msg : string).

Inductive result (A : Type) : Type :=
| Ok (a : A)
| Raise (e : exn).

Arguments Ok {A} a.
Arguments Raise {A} e.

Definition bind {A B : Type} (c : result A) (k : A -> result B) : result B :=
  match c with
  | Ok a => k a
  | Raise e => Raise e
  end.

Definition is_ok {A : Type} (c : result A) : bool :=
  match c with Ok _ => true | Raise _ => false end.

(** [[f x for x in xs]], stopping at the first exception. *)
Fixpoint mapM {A B : Type} (f : A -> result B) (xs : list A) : result (list B) :=
  match xs with
  | [] => Ok []
  | x :: xs' =>
      bind (f x) (fun y => bind (mapM f xs') (fun ys => Ok (y :: ys)))
  end.

(** [[f x y for x, y in zip(xs, ys)]], stopping at the first exception. *)
Fixpoint zipM {A B C : Type} (f : A -> B -> result C) (xs : list A) (ys : list B)
  : result (list C) :=
  match xs, ys with
  | x :: xs', y :: ys' =>
      bind (f x y) (fun z => bind (zipM f xs' ys') (fun zs => Ok (z :: zs)))
  | _, _ => Ok []
  end.

(** [str.lower] on the ASCII letters; every other character is kept. *)
Definition lower_ascii (c : ascii) : ascii :=
  let n := nat_of_ascii c in
  if (65 <=? n) && (n <=? 90) then ascii_of_nat (n + 32) else c.

Fixpoint lower (s : string) : string :=
  match s with
  | EmptyString => EmptyString
  | String c s' => String (lower_ascii c) (lower s')
  end.

(** [a, b = xs]: the right-hand side is iterated and must yield exactly
    two items. *)
Definition unpack2 {A : Type} (xs : list A) : result (A * A) :=
  match xs with
  | [] => Raise (ValueError "not enough values to unpack (expected 2, got 0)")
  | [_] => Raise (ValueError "not enough values to unpack (expected 2, got 1)")
  | [a; b] => Ok (a, b)
  | _ => Raise (ValueError "too many values to unpack (expected 2)")
  end.

End Py.

Import Py.

Declare Scope py_scope.
Delimit Scope py_scope with py.
Notation "x <- c ;; k" := (bind c (fun x => k))
  (at level 61, c at next level, right associativity) : py_scope.
Notation "' p <- c ;; k" := (bind c (fun p => k))
  (at level 61, p pattern, c at next level, right associativity) : py_scope.
Open Scope py_scope.
Open Scope string_scope.

(** ** Tensors *)

Module TF.

Fixpoint tensor (A : Type) (n : nat) : Type :=
  match n with
  | O => A
  | S n' => list (tensor A n')
  end.

(** The shape test: [has_shape n s t] holds when [t] has the extents [s]. *)
Fixpoint has_shape {A : Type} (n : nat) : list nat -> tensor A n -> bool :=
  match n return list nat -> tensor A n -> bool with
  | O => fun s _ => match s with [] => true | _ => false end
  | S n' => fun s t =>
      match s with
      | [] => false
      | k :: s' => Nat.eqb (List.length t) k && forallb (has_shape n' s') t
      end
  end.

(** An elementwise unary operation ([tf.nn.tanh], [tf.cast], ...). *)
Fixpoint tmap {A B : Type} (f : A -> B) (n : nat) : tensor A n -> tensor B n :=
  match n return tensor A n -> tensor B n with
  | O => f
  | S n' => List.map (tmap f n')
  end.

(** [tf.zeros(shape)] for a rank-2 shape. *)
Definition zeros (rows cols : nat) : tensor R 2 :=
  repeat (repeat 0%R cols) rows.

(** [tf.cast(mask, dtype=e.dtype)] of an integer (or boolean) tensor. *)
Definition cast (n : nat) (t : tensor Z n) : tensor R n := tmap IZR n t.

Definition incompatible : exn := InvalidArgumentError "Incompatible shapes".

(** A binary operator ([+], [*]) on two tensors of one rank, with the
    broadcasting rule: on every axis the extents are equal, or one of them
    is 1 and its only item is used against each item of the other. *)
Fixpoint bop (f : R -> R -> R) (n : nat)
  : tensor R n -> tensor R n -> result (tensor R n) :=
  match n return tensor R n -> tensor R n -> result (tensor R n) with
  | O => fun x y => Ok (f x y)
  | S n' => fun xs ys =>
      if Nat.eqb (List.length xs) (List.length ys) then zipM (bop f n') xs ys
      else
        match xs, ys with
        | [x], _ => mapM (fun y => bop f n' x y) ys
        | _, [y] => mapM (fun x => bop f n' x y) xs
        | _, _ => Raise incompatible
        end
  end.

(** [tf.expand_dims(t, -1)], and [tf.expand_dims(t, axis=n)] at rank [n]. *)
Fixpoint expand_dims_last {A : Type} (n : nat) : tensor A n -> tensor A (S n) :=
  match n return tensor A n -> tensor A (S n) with
  | O => fun x => [x]
  | S n' => List.map (expand_dims_last n')
  end.

(** [tf.expand_dims(t, 1)]. *)
Definition expand_dims_1 {A : Type} (n : nat) (t : tensor A (S n))
  : tensor A (S (S n)) :=
  List.map (fun v => [v]) t.

(** [tf.squeeze(t, axis=-1)]: the last axis must have extent 1. *)
Fixpoint squeeze_last {A : Type} (n : nat) : tensor A (S n) -> result (tensor A n) :=
  match n return tensor A (S n) -> result (tensor A n) with
  | O => fun t =>
      match t with
      | [x] => Ok x
      | _ => Raise (InvalidArgumentError "Can not squeeze a dimension that is not 1")
      end
  | S n' => mapM (squeeze_last n')
  end.

Definition sum (v : list R) : R := fold_right Rplus 0%R v.

(** [tf.reduce_sum(t, axis=-1)]. *)
Fixpoint reduce_sum_last (n : nat) : tensor R (S n) -> tensor R n :=
  match n return tensor R (S n) -> tensor R n with
  | O => sum
  | S n' => List.map (reduce_sum_last n')
  end.

(** Two vectors of one length, item by item. *)
Fixpoint zip_with {A B C : Type} (f : A -> B -> C) (xs : list A) (ys : list B)
  : list C :=
  match xs, ys with
  | x :: xs', y :: ys' => f x y :: zip_with f xs' ys'
  | _, _ => []
  end.

(** The sum of the rows of a matrix that has at least one row. *)
Fixpoint colsum (m : list (list R)) : list R :=
  match m with
  | [] => []
  | r :: rs =>
      match rs with
      | [] => r
      | _ :: _ => zip_with Rplus r (colsum rs)
      end
  end.

(** [tf.reduce_sum(t, axis=1)] at rank 3. *)
Definition reduce_sum_axis1 (t : tensor R 3) : tensor R 2 :=
  List.map colsum t.

(** [tf.nn.softmax(t, axis=1)] at rank 3: within each batch item the
    exponentials are divided by their sum over axis 1. *)
Definition softmax_axis1 (t : tensor R 3) : tensor R 3 :=
  List.map (fun m : tensor R 2 =>
              let ex := tmap exp 2 m in
              let total := colsum ex in
              List.map (fun row => zip_with Rdiv row total) ex) t.

Definition epsilon : R := (/ 10 ^ 12)%R.

(** [tf.nn.l2_normalize(t, -1)]: [x / sqrt(max(sum(x ** 2), epsilon))]. *)
Fixpoint l2_normalize (n : nat) : tensor R (S n) -> tensor R (S n) :=
  match n return tensor R (S n) -> tensor R (S n) with
  | O => fun v =>
      let square_sum := sum (List.map (fun x => x * x)%R v) in
      List.map (fun x => x * / sqrt (Rmax square_sum epsilon))%R v
  | S n' => List.map (l2_normalize n')
  end.

(** [tf.nn.sigmoid], in exact arithmetic. *)
Definition sigmoid (x : R) : R := (1 / (1 + exp (- x)))%R.

(** [x @ kernel + bias] for one input vector. *)
Fixpoint affine (x : list R) (kernel : list (list R)) (bias : list R) : list R :=
  match x, kernel with
  | xi :: x', row :: kernel' =>
      zip_with Rplus (List.map (Rmult xi) row) (affine x' kernel' bias)
  | _, _ => bias
  end.

(** A tensor of any rank, for a value whose rank depends on the path taken. *)
Inductive any_tensor : Type :=
| Rank (n : nat) (t : tensor R n).

End TF.

Import TF.

(** ** Keras layers the module instantiates *)

Module Keras.

(** [tf.keras.layers.Embedding(input_dim, output_dim, weights, trainable)]. *)
Record Embedding : Type := mkEmbedding {
  input_dim : nat;
  output_dim : nat;
  weights : option (list (tensor R 2));
  trainable : bool
}.

(** The recurrent layers, all built with [return_sequences=True] and
    [return_state=True]. *)
Inductive Recurrent : Type :=
| GRU (units : nat)
| LSTM (units : nat)
| Bidirectional (layer : Recurrent).

Inductive activation : Type := linear | softmax.

(** A [Dense] layer whose weights are not looked at. *)
Record DenseConfig : Type := mkDenseConfig {
  dense_units : nat;
  dense_activation : activation
}.

(** A [Dense] layer with its weights: [kernel] has one row per input
    feature and one column per unit. *)
Record Dense : Type := mkDense {
  kernel : list (list R);
  bias : list R
}.

(** Calling a [Dense] layer: the affine map on the last axis, whose
    extent must be the number of rows of the kernel. *)
Definition dense_vector (layer : Dense) (x : list R) : result (list R) :=
  if Nat.eqb (List.length x) (List.length (kernel layer))
  then Ok (affine x (kernel layer) (bias layer))
  else Raise (InvalidArgumentError "Input is incompatible with the layer").

Fixpoint dense (n : nat) (layer : Dense) : tensor R (S n) -> result (tensor R (S n)) :=
  match n return tensor R (S n) -> result (tensor R (S n)) with
  | O => dense_vector layer
  | S n' => mapM (dense n' layer)
  end.

(** The layer was built for [inputs] features and has [units] units. *)
Definition dense_shape (inputs units : nat) (layer : Dense) : bool :=
  has_shape 2 [inputs; units] (kernel layer)
  && Nat.eqb (List.length (bias layer)) units.

End Keras.

(** ** [class Encoder] *)

Module Encoder.

Record t : Type := mk {
  vocab_size : nat;
  embedding_dim : nat;
  enc_units : nat;
  batch_sz : nat;
  rnn_type : string;
  bidirectional : bool;
  embedding_weights : option (list (tensor R 2));
  embedding : Keras.Embedding;
  rnn : Keras.Recurrent
}.

Definition unsupported : exn := Exception "Only GRU and LSTM are supported now.".

(** [Encoder.__init__]. *)
Definition init (vocab_size embedding_dim enc_units batch_sz : nat)
    (rnn_type : string) (bidirectional : bool)
    (embedding_matrix : option (tensor R 2)) : result t :=
  let embedding_weights :=
    match embedding_matrix with Some m => Some [m] | None => None end in
  let trainalbe :=
    match embedding_matrix with Some _ => false | None => true end in
  let embedding :=
    Keras.mkEmbedding vocab_size embedding_dim embedding_weights trainalbe in
  rnn <- (if lower rnn_type =? "gru" then Ok (Keras.GRU enc_units)
          else if lower rnn_type =? "lstm" then Ok (Keras.LSTM enc_units)
          else Raise unsupported) ;;
  let rnn := if bidirectional then Keras.Bidirectional rnn else rnn in
  Ok (mk vocab_size embedding_dim enc_units batch_sz rnn_type bidirectional
         embedding_weights embedding rnn).

(** What [initialize_hidden_state] returns: one tensor, or a Python list
    of tensors. *)
Inductive hidden : Type :=
| One (state : tensor R 2)
| Many (states : list (tensor R 2)).

Definition state_count (h : hidden) : nat :=
  match h with
  | One _ => 1
  | Many states => List.length states
  end.

Definition states_of (h : hidden) : list (tensor R 2) :=
  match h with
  | One state => [state]
  | Many states => states
  end.

(** [Encoder.initialize_hidden_state]. *)
Definition initialize_hidden_state (self : t) (batch_size : option nat)
  : result hidden :=
  let batch_size :=
    match batch_size with None => batch_sz self | Some b => b end in
  if lower (rnn_type self) =? "gru" then
    let initial_hidden := zeros batch_size (enc_units self) in
    if bidirectional self then Ok (Many [initial_hidden; initial_hidden])
    else Ok (One initial_hidden)
  else if lower (rnn_type self) =? "lstm" then
    let dim := zeros batch_size (enc_units self) in
    if bidirectional self then Ok (Many [dim; dim; dim; dim])
    else Ok (Many [dim; dim])
  else Raise unsupported.

End Encoder.

(** ** [class Decoder] *)

Module Decoder.

Record t : Type := mk {
  vocab_size : nat;
  embedding_dim : nat;
  dec_units : nat;
  batch_sz : nat;
  rnn_type : string;
  embedding_weights : option (list (tensor R 2));
  embedding : Keras.Embedding;
  rnn : Keras.Recurrent;
  dense1 : Keras.DenseConfig;
  dense2 : Keras.DenseConfig
}.

Definition unsupported : exn := Exception "Only GRU and LSTM are supported now.".

(** [Decoder.__init__]. *)
Definition init (vocab_size embedding_dim dec_units batch_sz : nat)
    (rnn_type : string) (embedding_matrix : option (tensor R 2)) : result t :=
  let embedding_weights :=
    match embedding_matrix with Some m => Some [m] | None => None end in
  let trainalbe :=
    match embedding_matrix with Some _ => false | None => true end in
  let embedding :=
    Keras.mkEmbedding vocab_size embedding_dim embedding_weights trainalbe in
  rnn <- (if lower rnn_type =? "gru" then Ok (Keras.GRU dec_units)
          else if lower rnn_type =? "lstm" then Ok (Keras.LSTM dec_units)
          else Raise unsupported) ;;
  let dense1 := Keras.mkDenseConfig (2 * dec_units) Keras.linear in
  let dense2 := Keras.mkDenseConfig vocab_size Keras.softmax in
  Ok (mk vocab_size embedding_dim dec_units batch_sz rnn_type
         embedding_weights embedding rnn dense1 dense2).

End Decoder.

(** ** [class Attention] *)

Module Attention.

Record t : Type := mk {
  units : nat;
  score_type : string;
  mask_index : option Z;
  va : Keras.Dense;
  w1 : Keras.Dense;
  w2 : Keras.Dense;
  w3 : Keras.Dense
}.

(** [Attention.__init__]; the weights of the four [Dense] layers are the
    ones Keras gives them. *)
Definition init (units : nat) (score_type : string) (mask_index : option Z)
    (va w1 w2 w3 : Keras.Dense) : result t :=
  Ok (mk units score_type mask_index va w1 w2 w3).

(** The first part of [attention_score]: the branch on [score_type] that
    binds [e].  With no branch taken, [e] is unbound where it is read. *)
Definition raw_score (self : t) (enc_output curr_dec_hidden : tensor R 3)
    (prev_coverage : option (tensor R 3)) : result (tensor R 3) :=
  if lower (score_type self) =? "additive-concat" then
    match prev_coverage with
    | None =>
        a <- Keras.dense 2 (w1 self) enc_output ;;
        b <- Keras.dense 2 (w2 self) curr_dec_hidden ;;
        s <- bop Rplus 3 a b ;;
        Keras.dense 2 (va self) (tmap tanh 3 s)
    | Some prev =>
        a <- Keras.dense 2 (w1 self) enc_output ;;
        b <- Keras.dense 2 (w2 self) curr_dec_hidden ;;
        s <- bop Rplus 3 a b ;;
        c <- Keras.dense 2 (w3 self) prev ;;
        s' <- bop Rplus 3 s c ;;
        Keras.dense 2 (va self) (tmap tanh 3 s')
    end
  else if lower (score_type self) =? "dot-product" then
    p <- bop Rmult 3 enc_output curr_dec_hidden ;;
    Ok (expand_dims_last 2 (reduce_sum_last 2 p))
  else if lower (score_type self) =? "general" then
    temp_vector <- Keras.dense 2 (w1 self) curr_dec_hidden ;;
    p <- bop Rmult 3 enc_output temp_vector ;;
    Ok (expand_dims_last 2 (reduce_sum_last 2 p))
  else if lower (score_type self) =? "cosine-similarity" then
    let enc_output_norm := l2_normalize 2 enc_output in
    let dec_hidden_norm := l2_normalize 2 curr_dec_hidden in
    cos_similarity <- bop Rmult 3 enc_output_norm dec_hidden_norm ;;
    Ok (expand_dims_last 2 (reduce_sum_last 2 cos_similarity))
  else Raise (UnboundLocalError "e").

(** [Attention.attention_score]. *)
Definition attention_score (self : t) (enc_output curr_dec_hidden : tensor R 3)
    (encoder_pad_mask : tensor Z 2) (prev_coverage : option (tensor R 3))
  : result (tensor R 3) :=
  e <- raw_score self enc_output curr_dec_hidden prev_coverage ;;
  let mask := cast 2 encoder_pad_mask in
  squeezed <- squeeze_last 2 e ;;
  masked_e <- bop Rmult 2 squeezed mask ;;
  let masked_e := expand_dims_last 2 masked_e in
  Ok (softmax_axis1 masked_e).

(** [tf.reduce_sum(attention_score * enc_output, axis=1)]. *)
Definition context_vector (attention_score enc_output : tensor R 3)
  : result (tensor R 2) :=
  weighted <- bop Rmult 3 attention_score enc_output ;;
  Ok (reduce_sum_axis1 weighted).

(** [Attention.call].  Without coverage the result of [attention_score] is
    unpacked into two names: the tensor is iterated along its first axis,
    and the first item, a rank-2 tensor, is what the rest of the method
    uses (broadcast against [enc_output] as a batch of one). *)
Definition call (self : t) (dec_hidden : tensor R 2) (enc_output : tensor R 3)
    (encoder_pad_mask : tensor Z 2) (use_coverage : bool)
    (prev_coverage : option (tensor R 3))
  : result (tensor R 2 * any_tensor * option (tensor R 3)) :=
  let curr_dec_hidden := expand_dims_1 1 dec_hidden in
  if use_coverage then
    attention_score <-
      attention_score self enc_output curr_dec_hidden encoder_pad_mask prev_coverage ;;
    converage <-
      match prev_coverage with
      | None => Ok attention_score
      | Some prev => bop Rplus 3 prev attention_score
      end ;;
    context_vector <- context_vector attention_score enc_output ;;
    squeezed <- squeeze_last 2 attention_score ;;
    Ok (context_vector, Rank 2 squeezed, Some converage)
  else
    both <-
      attention_score self enc_output curr_dec_hidden encoder_pad_mask None ;;
    '(attention_score, e) <- unpack2 both ;;
    context_vector <- context_vector [attention_score] enc_output ;;
    squeezed <- squeeze_last 1 attention_score ;;
    Ok (context_vector, Rank 1 squeezed, None).

End Attention.

(** ** [class Pointer] *)

Module Pointer.

Record t : Type := mk {
  w_s_reduce : Keras.Dense;
  w_i_reduce : Keras.Dense;
  w_c_reduce : Keras.Dense
}.

(** [Pointer.call]. *)
Definition call (self : t) (context_vector dec_hidden dec_inp : tensor R 2)
  : result (tensor R 2) :=
  s <- Keras.dense 1 (w_s_reduce self) dec_hidden ;;
  c <- Keras.dense 1 (w_c_reduce self) context_vector ;;
  sc <- bop Rplus 2 s c ;;
  i <- Keras.dense 1 (w_i_reduce self) dec_inp ;;
  total <- bop Rplus 2 sc i ;;
  Ok (tmap sigmoid 2 total).

End Pointer.

(** ** The arithmetic of dtype float32, and [Pointer.call] in it *)

Module Float32.

(** A value of dtype float32 (IEEE 754 binary32): a real number
    [m * 2^e] with [|m| < 2^24] and [-149 <= e <= 104], an infinity, or
    NaN.  The two zeros are not told apart. *)
Inductive t : Type :=
| Finite (x : R)
| Infinity (negative : bool)
| NaN.

(** The nearest integer, the even one of two that are equally near. *)
Definition nearest_even (x : R) : Z :=
  let n := Zfloor x in
  if Rlt_dec (x - IZR n) (1 / 2) then n
  else if Rlt_dec (1 / 2) (x - IZR n) then (n + 1)%Z
  else if Z.even n then n else (n + 1)%Z.

(** The exponent of the unit in the last place of [x]: the least [e'],
    from [e] on and within [fuel] steps, with [|x| < 2^(e' + 24)]. *)
Fixpoint ulp_exponent (fuel : nat) (e : Z) (x : R) : Z :=
  match fuel with
  | O => e
  | S fuel' =>
      if Rlt_dec (Rabs x) (powerRZ 2 (e + 24)) then e
      else ulp_exponent fuel' (e + 1) x
  end.

(** The largest finite value. *)
Definition max_finite : R := (IZR (2 ^ 24 - 1) * powerRZ 2 104)%R.

(** Rounding to the nearest value of the format, ties to even; a result
    beyond the largest finite value is an infinity. *)
Definition round (x : R) : t :=
  let e := ulp_exponent 254 (-149) x in
  let y := (IZR (nearest_even (x * powerRZ 2 (- e))) * powerRZ 2 e)%R in
  if Rlt_dec max_finite (Rabs y)
  then Infinity (if Rlt_dec x 0 then true else false)
  else Finite y.

Definition add (a b : t) : t :=
  match a, b with
  | NaN, _ | _, NaN => NaN
  | Finite x, Finite y => round (x + y)
  | Infinity s, Finite _ | Finite _, Infinity s => Infinity s
  | Infinity s1, Infinity s2 => if Bool.eqb s1 s2 then Infinity s1 else NaN
  end.

Definition mul (a b : t) : t :=
  match a, b with
  | NaN, _ | _, NaN => NaN
  | Finite x, Finite y => round (x * y)
  | Infinity s, Finite y | Finite y, Infinity s =>
      if Req_dec_T y 0 then NaN
      else Infinity (xorb s (if Rlt_dec y 0 then true else false))
  | Infinity s1, Infinity s2 => Infinity (xorb s1 s2)
  end.

(** [tf.nn.sigmoid] on dtype float32: the value of the format nearest to
    the sigmoid, its limits at the infinities. *)
Definition sigmoid (a : t) : t :=
  match a with
  | Finite x => round (TF.sigmoid x)
  | Infinity false => Finite 1
  | Infinity true => Finite 0
  | NaN => NaN
  end.

(** [TF.bop] on float32 tensors. *)
Fixpoint bop (f : t -> t -> t) (n : nat)
  : tensor t n -> tensor t n -> result (tensor t n) :=
  match n return tensor t n -> tensor t n -> result (tensor t n) with
  | O => fun x y => Ok (f x y)
  | S n' => fun xs ys =>
      if Nat.eqb (List.length xs) (List.length ys) then zipM (bop f n') xs ys
      else
        match xs, ys with
        | [x], _ => mapM (fun y => bop f n' x y) ys
        | _, [y] => mapM (fun x => bop f n' x y) xs
        | _, _ => Raise incompatible
        end
  end.

(** [x @ kernel] for one input vector: the products are accumulated
    feature after feature, from [acc]. *)
Fixpoint matvec (acc x : list t) (kernel : list (list t)) : list t :=
  match x, kernel with
  | xi :: x', row :: kernel' =>
      matvec (zip_with add acc (List.map (mul xi) row)) x' kernel'
  | _, _ => acc
  end.

(** [Keras.dense_vector] and [Keras.dense] at rank 2 on float32 tensors:
    [x @ kernel + bias], with the weights of the layer in float32. *)
Definition dense_vector (layer : Keras.Dense) (x : list t) : result (list t) :=
  if Nat.eqb (List.length x) (List.length (Keras.kernel layer))
  then
    let zero := repeat (Finite 0) (List.length (Keras.bias layer)) in
    Ok (zip_with add (matvec zero x (tmap round 2 (Keras.kernel layer)))
                 (List.map round (Keras.bias layer)))
  else Raise (InvalidArgumentError "Input is incompatible with the layer").

Definition dense (layer : Keras.Dense) (x : tensor t 2) : result (tensor t 2) :=
  mapM (dense_vector layer) x.

(** [Pointer.call] on inputs converted to float32. *)
Definition pointer_call (self : Pointer.t)
    (context_vector dec_hidden dec_inp : tensor R 2) : result (tensor t 2) :=
  s <- dense (Pointer.w_s_reduce self) (tmap round 2 dec_hidden) ;;
  c <- dense (Pointer.w_c_reduce self) (tmap round 2 context_vector) ;;
  sc <- bop add 2 s c ;;
  i <- dense (Pointer.w_i_reduce self) (tmap round 2 dec_inp) ;;
  total <- bop add 2 sc i ;;
  Ok (tmap sigmoid 2 total).

End Float32.

(** ** The forward passes of [Encoder] and [Decoder] *)

Module Forward.

(** [tf.concat([a, b], axis=-1)]: the extents of every axis but the last
    must be equal. *)
Fixpoint concat_last (n : nat) : tensor R (S n) -> tensor R (S n) -> result (tensor R (S n)) :=
  match n return tensor R (S n) -> tensor R (S n) -> result (tensor R (S n)) with
  | O => fun a b => Ok (List.app a b)
  | S n' => fun xs ys =>
      if Nat.eqb (List.length xs) (List.length ys)
      then zipM (concat_last n') xs ys
      else Raise (InvalidArgumentError "Dimensions of inputs should match")
  end.

(** [tf.reshape(t, shape=(-1, t.shape[2]))] at rank 3: the first two axes
    are merged. *)
Definition reshape_rows (t : tensor R 3) : tensor R 2 := List.concat t.

(** The [softmax] activation of a [Dense] layer, over the last axis. *)
Definition softmax_rows (t : tensor R 2) : tensor R 2 :=
  List.map (fun row =>
              let ex := List.map exp row in
              List.map (fun v => v / sum ex)%R ex) t.

(** The weights of [Decoder.dense1] and [Decoder.dense2]. *)
Record decoder_weights : Type := mkDecoderWeights {
  dense1_weights : Keras.Dense;
  dense2_weights : Keras.Dense
}.

Definition unpack_error : exn := ValueError "wrong number of values to unpack".

Section Layers.

(** What the embedding and the recurrent layer compute is taken as given.
    The recurrent layer returns its output sequence and, after it, its
    final states. *)
Variable embedding_call : Keras.Embedding -> tensor Z 2 -> result (tensor R 3).
Variable rnn_call :
  Keras.Recurrent -> tensor R 3 -> Encoder.hidden ->
  result (tensor R 3 * list (tensor R 2)).

(** [Encoder.call]. *)
Definition encoder_call (self : Encoder.t) (x : tensor Z 2) (hidden : Encoder.hidden)
  : result (tensor R 3 * Encoder.hidden) :=
  x <- embedding_call (Encoder.embedding self) x ;;
  if lower (Encoder.rnn_type self) =? "gru" then
    if Encoder.bidirectional self then
      '(output, states) <- rnn_call (Encoder.rnn self) x hidden ;;
      match states with
      | [forward_state; backward_state] =>
          Ok (output, Encoder.Many [forward_state; backward_state])
      | _ => Raise unpack_error
      end
    else
      '(output, states) <- rnn_call (Encoder.rnn self) x hidden ;;
      match states with
      | [state] => Ok (output, Encoder.One state)
      | _ => Raise unpack_error
      end
  else if lower (Encoder.rnn_type self) =? "lstm" then
    if Encoder.bidirectional self then
      '(output, states) <- rnn_call (Encoder.rnn self) x hidden ;;
      match states with
      | [forward_h; forward_c; backward_h; backward_c] =>
          Ok (output, Encoder.Many [forward_h; forward_c; backward_h; backward_c])
      | _ => Raise unpack_error
      end
    else
      '(output, states) <- rnn_call (Encoder.rnn self) x hidden ;;
      match states with
      | [state_h; state_c] => Ok (output, Encoder.Many [state_h; state_c])
      | _ => Raise unpack_error
      end
  else Raise Encoder.unsupported.

(** [Decoder.call]; the state is one tensor for the GRU cell and the list
    [[state_h; state_c]] for the LSTM cell. *)
Definition decoder_call (self : Decoder.t) (weights : decoder_weights)
    (x : tensor Z 2) (hidden : Encoder.hidden) (context_vector : tensor R 2)
  : result (tensor R 2 * Encoder.hidden) :=
  x <- embedding_call (Decoder.embedding self) x ;;
  '(output, state) <-
    (if lower (Decoder.rnn_type self) =? "gru" then
       '(output, states) <- rnn_call (Decoder.rnn self) x hidden ;;
       match states with
       | [state] => Ok (output, Encoder.One state)
       | _ => Raise unpack_error
       end
     else if lower (Decoder.rnn_type self) =? "lstm" then
       '(output, states) <- rnn_call (Decoder.rnn self) x hidden ;;
       match states with
       | [state_h; state_c] => Ok (output, Encoder.Many [state_h; state_c])
       | _ => Raise unpack_error
       end
     else Raise Decoder.unsupported) ;;
  output <- concat_last 2 (expand_dims_1 1 context_vector) output ;;
  let output := reshape_rows output in
  output <- Keras.dense 1 (dense1_weights weights) output ;;
  output <- Keras.dense 1 (dense2_weights weights) output ;;
  Ok (softmax_rows output, state).

End Layers.

End Forward.

(** * Vocabulary of the statements *)

(** ** Shapes *)

(** [shaped n s t]: the tensor [t] of rank [n] has the extents [s]; the
    propositional reading of [has_shape]. *)
Fixpoint shaped {A : Type} (n : nat) : list nat -> tensor A n -> Prop :=
  match n return list nat -> tensor A n -> Prop with
  | O => fun s _ => s = []
  | S n' => fun s t =>
      match s with
      | [] => False
      | k :: s' => List.length t = k /\ Forall (shaped n' s') t
      end
  end.

(** The elementwise combination of two tensors of one shape. *)
Fixpoint tzip (f : R -> R -> R) (n : nat) : tensor R n -> tensor R n -> tensor R n :=
  match n return tensor R n -> tensor R n -> tensor R n with
  | O => f
  | S n' => zip_with (tzip f n')
  end.

(** [broadcast s1 s2 s]: two shapes of one rank that a binary operator
    accepts, and the shape of its result. *)
Inductive broadcast : list nat -> list nat -> list nat -> Prop :=
| broadcast_nil : broadcast [] [] []
| broadcast_same (k : nat) (s1 s2 s : list nat) :
    broadcast s1 s2 s -> broadcast (k :: s1) (k :: s2) (k :: s)
| broadcast_left (k : nat) (s1 s2 s : list nat) :
    broadcast s1 s2 s -> broadcast (1 :: s1) (k :: s2) (k :: s)
| broadcast_right (k : nat) (s1 s2 s : list nat) :
    broadcast s1 s2 s -> broadcast (k :: s1) (1 :: s2) (k :: s).

(** ** Configurations *)

(** The cell kinds the two layers accept, whatever the case of the name. *)
Definition supported_rnn_type (rnn_type : string) : bool :=
  (lower rnn_type =? "gru") || (lower rnn_type =? "lstm").

(** The four score types, whatever the case of the name. *)
Definition supported_score_type (score_type : string) : bool :=
  (lower score_type =? "additive-concat")
  || (lower score_type =? "dot-product")
  || (lower score_type =? "general")
  || (lower score_type =? "cosine-similarity").

Definition all_zero (state : tensor R 2) : Prop :=
  Forall (Forall (fun x => x = 0%R)) state.

(** The number of states of the configured cell: one for the gated
    recurrent cell, two for the memory cell, per direction. *)
Definition configured_states (self : Encoder.t) : nat :=
  (if lower (Encoder.rnn_type self) =? "gru" then 1 else 2)
  * (if Encoder.bidirectional self then 2 else 1).

(** The weights of the layer fit encoder outputs of [d] features and decoder
    states of [dh] features, for the configured score type. *)
Definition weights_fit (self : Attention.t) (d dh : nat) (coverage : bool) : bool :=
  let u := Attention.units self in
  if lower (Attention.score_type self) =? "additive-concat" then
    Keras.dense_shape d u (Attention.w1 self)
    && Keras.dense_shape dh u (Attention.w2 self)
    && Keras.dense_shape u 1 (Attention.va self)
    && (if coverage then Keras.dense_shape 1 u (Attention.w3 self) else true)
  else if lower (Attention.score_type self) =? "dot-product" then Nat.eqb d dh
  else if lower (Attention.score_type self) =? "general" then
    Keras.dense_shape dh d (Attention.w1 self)
  else if lower (Attention.score_type self) =? "cosine-similarity" then Nat.eqb d dh
  else false.

(** The inputs of [attention_score] are valid: a batch of [b] sequences of
    [L] encoder outputs, one decoder state per sequence, a padding mask
    aligned with the encoder outputs, a coverage (if any) of one value per
    position, and weights that fit. *)
Definition valid_inputs (self : Attention.t) (b L d dh : nat)
    (enc_output curr_dec_hidden : tensor R 3) (encoder_pad_mask : tensor Z 2)
    (prev_coverage : option (tensor R 3)) : bool :=
  has_shape 3 [b; L; d] enc_output
  && has_shape 3 [b; 1; dh] curr_dec_hidden
  && has_shape 2 [b; L] encoder_pad_mask
  && match prev_coverage with
     | None => weights_fit self d dh false
     | Some prev => has_shape 3 [b; L; 1] prev && weights_fit self d dh true
     end.

(** A decode over the steps whose decoder states are [states]: the encoder
    outputs, the mask and every decoder state have the shapes of one batch,
    and the weights fit, those of the coverage included. *)
Definition valid_decode (self : Attention.t) (b L d dh : nat)
    (enc_output : tensor R 3) (encoder_pad_mask : tensor Z 2)
    (states : list (tensor R 2)) : bool :=
  has_shape 3 [b; L; d] enc_output
  && has_shape 2 [b; L] encoder_pad_mask
  && forallb (has_shape 2 [b; dh]) states
  && weights_fit self d dh true.

(** ** The specification's formulas *)

(** The attention distribution in the words of the specification: the raw
    scores are multiplied by the padding mask, then a softmax is taken over
    the input positions. *)
Definition softmax_over_positions (z : list R) : list R :=
  List.map (fun x => exp x / sum (List.map exp z))%R z.

Definition masked_softmax (scores : tensor R 2) (mask : tensor Z 2) : tensor R 2 :=
  zip_with (fun row m =>
              softmax_over_positions (zip_with (fun x k => x * IZR k)%R row m))
           scores mask.

(** The attention mass on the positions that are not padding. *)
Definition nonpadded_mass (weights : list R) (mask : list Z) : R :=
  sum (zip_with (fun w k => if (k =? 0)%Z then 0 else w)%R weights mask).

(** The new coverage in the words of the specification: the previous
    coverage plus the attention distribution, item by item, and the
    attention distribution itself when there is no previous coverage. *)
Definition accumulate (prev_coverage : option (tensor R 3)) (attention : tensor R 2)
  : tensor R 3 :=
  match prev_coverage with
  | None => expand_dims_last 2 attention
  | Some prev => tzip Rplus 3 prev (expand_dims_last 2 attention)
  end.

(** The context vector in the words of the specification: feature [j] is
    the sum over the positions of the weight of the position times feature
    [j] of the encoder output at the position. *)
Definition weighted_sum (d : nat) (weights : list R) (outputs : list (list R))
  : list R :=
  List.map (fun j => sum (zip_with (fun w row => w * nth j row 0)%R weights outputs))
           (seq 0 d).






(** The projection and the generation probability in float32: the products
    are accumulated feature after feature, the bias is added last. *)
Definition projection32 (layer : Keras.Dense) (x : list R) : Float32.t :=
  Float32.add
    (fold_left Float32.add
       (zip_with Float32.mul (List.map Float32.round x)
                 (List.map (fun row => Float32.round (nth 0 row 0%R))
                           (Keras.kernel layer)))
       (Float32.Finite 0))
    (Float32.round (nth 0 (Keras.bias layer) 0%R)).

Definition p_gen32 (self : Pointer.t) (context_vector dec_hidden dec_inp : list R)
  : Float32.t :=
  Float32.sigmoid
    (Float32.add
       (Float32.add (projection32 (Pointer.w_s_reduce self) dec_hidden)
                    (projection32 (Pointer.w_c_reduce self) context_vector))
       (projection32 (Pointer.w_i_reduce self) dec_inp)).

Fixpoint p_gens32 (self : Pointer.t) (context_vector dec_hidden dec_inp : tensor R 2)
  : tensor Float32.t 2 :=
  match context_vector, dec_hidden, dec_inp with
  | c :: cs, h :: hs, i :: inps => [p_gen32 self c h i] :: p_gens32 self cs hs inps
  | _, _, _ => []
  end.


(** ** Sample layers and inputs *)

Definition lstm_bidirectional_encoder : Encoder.t :=
  Encoder.mk 20 8 10 5 "lstm" true None (Keras.mkEmbedding 20 8 None true)
             (Keras.Bidirectional (Keras.LSTM 10)).

Definition no_weights : Keras.Dense := Keras.mkDense [] [].

(** An attention layer with the dot-product score, which uses no weights. *)
Definition dot_product_layer : Attention.t :=
  Attention.mk 10 "dot-product" None no_weights no_weights no_weights no_weights.

(** A batch of one sequence of two positions with zero encoder outputs, a
    zero decoder state, and a mask whose second position is padding. *)
Definition two_positions : tensor R 3 := [[[0]; [0]]]%R.
Definition one_state : tensor R 3 := [[[0]]]%R.
Definition zero_state : tensor R 2 := [[0]]%R.
Definition second_is_padding : tensor Z 2 := [[1; 0]]%Z.

(** A batch of one sequence of two positions with two features each, and a
    decoder state for it. *)
Definition sample_outputs : tensor R 3 := [[[1; 2]; [3; 4]]]%R.
Definition sample_state : tensor R 2 := [[1; 0]]%R.
Definition no_padding : tensor Z 2 := [[1; 1]]%Z.


(** A generation gate whose weights take the projections of the decoder
    state and of the context vector beyond the largest finite float32
    value. *)
Definition overflowing_pointer : Pointer.t :=
  Pointer.mk (Keras.mkDense [[powerRZ 2 127]] [0])%R
             (Keras.mkDense [[0]] [0])%R
             (Keras.mkDense [[powerRZ 2 127]] [0])%R.

(** ** Further vocabulary *)

(** The number of states a recurrent layer takes and returns: one for a GRU
    layer, two for an LSTM layer, and those of both directions for a
    bidirectional layer. *)
Fixpoint layer_states (layer : Keras.Recurrent) : nat :=
  match layer with
  | Keras.GRU _ => 1
  | Keras.LSTM _ => 2
  | Keras.Bidirectional inner => 2 * layer_states inner
  end.

(** Two states have one structure: both a bare tensor, or both a list, of
    one length. *)
Definition same_structure (h1 h2 : Encoder.hidden) : Prop :=
  match h1, h2 with
  | Encoder.One _, Encoder.One _ => True
  | Encoder.Many l1, Encoder.Many l2 => List.length l1 = List.length l2
  | _, _ => False
  end.

(** A one-directional GRU encoder, an embedding and a recurrent layer that
    return zeros, for one state. *)
Definition gru_encoder : Encoder.t :=
  Encoder.mk 20 8 10 5 "gru" false None (Keras.mkEmbedding 20 8 None true)
             (Keras.GRU 10).

Definition zero_embedding (layer : Keras.Embedding) (x : tensor Z 2)
  : result (tensor R 3) :=
  Ok (tmap (fun _ => repeat 0%R (Keras.output_dim layer)) 2 x).

Definition one_state_rnn (layer : Keras.Recurrent) (x : tensor R 3)
    (hidden : Encoder.hidden) : result (tensor R 3 * list (tensor R 2)) :=
  Ok (List.map (List.map (fun _ => [0%R])) x, [List.map (fun _ => [0%R]) x]).

(** The dot product of two vectors. *)
Definition dot (x y : list R) : R := sum (zip_with Rmult x y).

(** One dot product per sequence and position: the encoder output at the
    position with the state of the sequence. *)
Definition dot_scores (enc_output : tensor R 3) (states : tensor R 2) : tensor R 2 :=
  zip_with (fun m v => List.map (fun row => dot row v) m) enc_output states.

(** The uniform distribution over [L] positions, for [b] sequences. *)
Definition uniform (b L : nat) : tensor R 2 :=
  repeat (repeat (1 / INR L)%R L) b.

(** A GRU decoder over a vocabulary of 3 words, with its weights, and a
    recurrent layer that returns zeros of the width of its layer. *)
Definition gru_decoder : Decoder.t :=
  Decoder.mk 3 2 1 1 "gru" None (Keras.mkEmbedding 3 2 None true) (Keras.GRU 1)
             (Keras.mkDenseConfig 2 Keras.linear)
             (Keras.mkDenseConfig 3 Keras.softmax).

Definition gru_decoder_weights : Forward.decoder_weights :=
  Forward.mkDecoderWeights
    (Keras.mkDense [[1; 0]; [0; 1]; [1; 1]] [0; 0])%R
    (Keras.mkDense [[1; 0; 0]; [0; 1; 0]] [0; 0; 0])%R.

(** A layer with the "general" score over two features, whose projection
    swaps the features of the decoder state. *)
Definition general_layer : Attention.t :=
  Attention.mk 2 "general" None no_weights
               (Keras.mkDense [[0; 1]; [1; 0]] [0; 0])%R no_weights no_weights.

(** The projection of one vector by a [Dense] layer. *)
Definition project (layer : Keras.Dense) (v : list R) : list R :=
  affine v (Keras.kernel layer) (Keras.bias layer).

(** A batch of two sequences of one position, for the path without
    coverage. *)
Definition two_sequences : tensor R 3 := [[[1; 2]]; [[3; 4]]]%R.
Definition two_states : tensor R 2 := [[1; 0]; [0; 1]]%R.
Definition two_masks : tensor Z 2 := [[1]; [1]]%Z.

(** * Properties *)

(** ** Sequencing and lists *)

Lemma mapM_ok :
  forall {A B : Type} (P : A -> Prop) (Q : B -> Prop) (f : A -> result B)
         (xs : list A),
    (forall x, P x -> exists y, f x = Ok y /\ Q y) ->
    Forall P xs ->
    exists ys, mapM f xs = Ok ys /\ List.length ys = List.length xs /\ Forall Q ys.
Proof.
  intros A B P Q f xs Hf Hxs.
  induction Hxs as [| x xs Hx Hxs IH].
  - exists []. simpl. auto.
  - destruct (Hf x Hx) as [y [Hy HQ]].
    destruct IH as [ys [Hys [Hlen HQs]]].
    exists (y :: ys). simpl. rewrite Hy, Hys. simpl.
    repeat split; auto.
Qed.

Lemma mapM_pure :
  forall {A B : Type} (P : A -> Prop) (f : A -> result B) (g : A -> B)
         (xs : list A),
    (forall x, P x -> f x = Ok (g x)) ->
    Forall P xs ->
    mapM f xs = Ok (List.map g xs).
Proof.
  intros A B P f g xs Hf Hxs.
  induction Hxs as [| x xs Hx Hxs IH]; simpl.
  - reflexivity.
  - rewrite (Hf x Hx), IH. reflexivity.
Qed.

Lemma zipM_ok :
  forall {A B C : Type} (P : A -> Prop) (Q : B -> Prop) (T : C -> Prop)
         (f : A -> B -> result C) (xs : list A) (ys : list B),
    (forall x y, P x -> Q y -> exists z, f x y = Ok z /\ T z) ->
    List.length xs = List.length ys ->
    Forall P xs -> Forall Q ys ->
    exists zs,
      zipM f xs ys = Ok zs /\ List.length zs = List.length xs /\ Forall T zs.
Proof.
  intros A B C P Q T f xs ys Hf Hlen Hxs. revert ys Hlen.
  induction Hxs as [| x xs Hx Hxs IH]; intros ys Hlen Hys.
  - exists []. simpl. auto.
  - destruct ys as [| y ys]; [discriminate |].
    inversion Hys as [| y' ys' Hy Hys']; subst.
    destruct (Hf x y Hx Hy) as [z [Hz HT]].
    destruct (IH ys) as [zs [Hzs [Hl HTs]]]; [simpl in Hlen; lia | assumption |].
    exists (z :: zs). simpl. rewrite Hz, Hzs. simpl.
    repeat split; auto.
Qed.

Lemma zipM_pure :
  forall {A B C : Type} (P : A -> Prop) (Q : B -> Prop)
         (f : A -> B -> result C) (g : A -> B -> C) (xs : list A) (ys : list B),
    (forall x y, P x -> Q y -> f x y = Ok (g x y)) ->
    Forall P xs -> Forall Q ys ->
    zipM f xs ys = Ok (zip_with g xs ys).
Proof.
  intros A B C P Q f g xs ys Hf Hxs. revert ys.
  induction Hxs as [| x xs Hx Hxs IH]; intros ys Hys.
  - reflexivity.
  - destruct ys as [| y ys]; [reflexivity |].
    inversion Hys as [| y' ys' Hy Hys']; subst.
    simpl. rewrite (Hf x y Hx Hy), (IH ys Hys'). reflexivity.
Qed.

Lemma zip_with_length :
  forall {A B C : Type} (f : A -> B -> C) (xs : list A) (ys : list B),
    List.length xs = List.length ys ->
    List.length (zip_with f xs ys) = List.length xs.
Proof.
  intros A B C f xs. induction xs as [| x xs IH]; intros [| y ys] Hlen;
    simpl in *; try discriminate; auto.
Qed.

Lemma zip_with_Forall :
  forall {A B C : Type} (P : A -> Prop) (Q : B -> Prop) (T : C -> Prop)
         (f : A -> B -> C) (xs : list A) (ys : list B),
    (forall x y, P x -> Q y -> T (f x y)) ->
    Forall P xs -> Forall Q ys -> Forall T (zip_with f xs ys).
Proof.
  intros A B C P Q T f xs ys Hf Hxs. revert ys.
  induction Hxs as [| x xs Hx Hxs IH]; intros ys Hys; simpl.
  - constructor.
  - destruct ys as [| y ys]; [constructor |].
    inversion Hys; subst. constructor; auto.
Qed.

(** ** Shapes *)

Lemma has_shape_shaped :
  forall {A : Type} (n : nat) (s : list nat) (t : tensor A n),
    has_shape n s t = true <-> shaped n s t.
Proof.
  intros A n. induction n as [| n IH]; intros s t; simpl.
  - destruct s; split; intros H; try reflexivity; discriminate.
  - destruct s as [| k s].
    + split; [discriminate | contradiction].
    + rewrite andb_true_iff, Nat.eqb_eq, forallb_forall, Forall_forall.
      split; intros [Hlen Hall]; split; auto; intros x Hx; apply IH; auto.
Qed.

Lemma tmap_shaped :
  forall {A B : Type} (f : A -> B) (n : nat) (s : list nat) (t : tensor A n),
    shaped n s t -> shaped n s (tmap f n t).
Proof.
  intros A B f n. induction n as [| n IH]; intros s t; simpl.
  - auto.
  - destruct s as [| k s]; [auto |].
    intros [Hlen Hall]. split.
    + rewrite length_map. exact Hlen.
    + apply Forall_map. revert Hall. apply Forall_impl. intros x. apply IH.
Qed.

Lemma tzip_shaped :
  forall (f : R -> R -> R) (n : nat) (s : list nat) (a b : tensor R n),
    shaped n s a -> shaped n s b -> shaped n s (tzip f n a b).
Proof.
  intros f n. induction n as [| n IH]; intros s a b; simpl.
  - auto.
  - destruct s as [| k s]; [auto |].
    intros [Hla Ha] [Hlb Hb]. split.
    + rewrite zip_with_length; [exact Hla |].
      transitivity k; [exact Hla | symmetry; exact Hlb].
    + apply zip_with_Forall with (P := shaped n s) (Q := shaped n s); auto.
Qed.

(** On two tensors of one shape a binary operator works item by item. *)
Lemma bop_same_shape :
  forall (f : R -> R -> R) (n : nat) (s : list nat) (a b : tensor R n),
    shaped n s a -> shaped n s b -> bop f n a b = Ok (tzip f n a b).
Proof.
  intros f n. induction n as [| n IH]; intros s a b; simpl.
  - reflexivity.
  - destruct s as [| k s]; [contradiction |].
    intros [Hla Ha] [Hlb Hb].
    replace (Nat.eqb (List.length a) (List.length b)) with true
      by (symmetry; apply Nat.eqb_eq; transitivity k;
          [exact Hla | symmetry; exact Hlb]).
    apply zipM_pure with (P := shaped n s) (Q := shaped n s); auto.
    intros x y Hx Hy. apply IH with (s := s); assumption.
Qed.

(** On two tensors whose shapes broadcast, a binary operator returns a
    tensor of the broadcast shape. *)
Lemma bop_broadcast :
  forall (f : R -> R -> R) (n : nat) (s1 s2 s : list nat) (a b : tensor R n),
    broadcast s1 s2 s -> shaped n s1 a -> shaped n s2 b ->
    exists c, bop f n a b = Ok c /\ shaped n s c.
Proof.
  intros f n. induction n as [| n IH]; intros s1 s2 s a b Hbc Ha Hb.
  - simpl in *. subst. inversion Hbc. exists (f a b). split; reflexivity.
  - simpl in Ha, Hb.
    destruct s1 as [| k1 r1]; [contradiction |].
    destruct s2 as [| k2 r2]; [contradiction |].
    destruct Ha as [Hla Ha]. destruct Hb as [Hlb Hb].
    assert (Hzip : forall r, broadcast r1 r2 r ->
              List.length a = List.length b ->
              exists c, zipM (bop f n) a b = Ok c
                        /\ shaped (S n) (List.length a :: r) c).
    { intros r Hr Hlen.
      destruct (zipM_ok (shaped n r1) (shaped n r2) (shaped n r) (bop f n) a b)
        as [c [Hc [Hl Hs]]]; auto.
      - intros x y Hx Hy. apply IH with (s1 := r1) (s2 := r2); assumption.
      - exists c. simpl. auto. }
    assert (Hleft : forall r x, broadcast r1 r2 r -> shaped n r1 x ->
              exists c, mapM (fun y => bop f n x y) b = Ok c
                        /\ shaped (S n) (List.length b :: r) c).
    { intros r x Hr Hx.
      destruct (mapM_ok (shaped n r2) (shaped n r) (fun y => bop f n x y) b)
        as [c [Hc [Hl Hs]]]; auto.
      - intros y Hy. apply IH with (s1 := r1) (s2 := r2); assumption.
      - exists c. simpl. auto. }
    assert (Hright : forall r y, broadcast r1 r2 r -> shaped n r2 y ->
              exists c, mapM (fun x => bop f n x y) a = Ok c
                        /\ shaped (S n) (List.length a :: r) c).
    { intros r y Hr Hy.
      destruct (mapM_ok (shaped n r1) (shaped n r) (fun x => bop f n x y) a)
        as [c [Hc [Hl Hs]]]; auto.
      - intros x Hx. apply IH with (s1 := r1) (s2 := r2); assumption.
      - exists c. simpl. auto. }
    simpl.
    destruct (Nat.eqb (List.length a) (List.length b)) eqn:Hlen.
    + apply Nat.eqb_eq in Hlen.
      inversion Hbc as [| k r1' r2' r Hr | k r1' r2' r Hr | k r1' r2' r Hr];
        subst; destruct (Hzip r Hr Hlen) as [c [Hc Hs]]; exists c;
        (split; [exact Hc |]);
        first [exact Hs | rewrite Hlen in Hs; exact Hs].
    + apply Nat.eqb_neq in Hlen.
      inversion Hbc as [| k r1' r2' r Hr | k r1' r2' r Hr | k r1' r2' r Hr];
        subst.
      * congruence.
      * destruct a as [| x [| x' a']]; try discriminate.
        inversion Ha; subst. apply Hleft; assumption.
      * destruct b as [| y [| y' b']]; try discriminate.
        inversion Hb; subst.
        destruct a as [| x [| x' a']].
        -- apply Hright; assumption.
        -- simpl in Hlen. congruence.
        -- apply Hright; assumption.
Qed.

Lemma mapM_shaped :
  forall {A B : Type} (n n' : nat) (f : tensor A n -> result (tensor B n'))
         (s s' : list nat) (k : nat) (t : tensor A (S n)),
    (forall x, shaped n s x -> exists y, f x = Ok y /\ shaped n' s' y) ->
    shaped (S n) (k :: s) t ->
    exists y : tensor B (S n'), mapM f t = Ok y /\ shaped (S n') (k :: s') y.
Proof.
  intros A B n n' f s s' k t Hf [Hlen Hall].
  destruct (mapM_ok (shaped n s) (shaped n' s') f t Hf Hall)
    as [ys [Hys [Hl Hs]]].
  exists ys. split; [exact Hys |].
  split; [| exact Hs].
  transitivity (List.length t); assumption.
Qed.

(** ** Dense layers *)

Lemma affine_length :
  forall (u : nat) (x : list R) (kernel : list (list R)) (bias : list R),
    Forall (fun row => List.length row = u) kernel ->
    List.length bias = u ->
    List.length (affine x kernel bias) = u.
Proof.
  intros u x. induction x as [| xi x IH]; intros kernel bias Hk Hb; simpl.
  - exact Hb.
  - destruct kernel as [| row kernel]; [exact Hb |].
    inversion Hk as [| row' kernel' Hrow Hrest]; subst row' kernel'.
    rewrite zip_with_length; rewrite length_map; [exact Hrow |].
    rewrite (IH kernel bias Hrest Hb). exact Hrow.
Qed.

Lemma dense_shape_spec :
  forall inputs units layer,
    Keras.dense_shape inputs units layer = true ->
    List.length (Keras.kernel layer) = inputs
    /\ Forall (fun row => List.length row = units) (Keras.kernel layer)
    /\ List.length (Keras.bias layer) = units.
Proof.
  intros inputs units layer H. unfold Keras.dense_shape in H.
  apply andb_true_iff in H as [Hk Hb].
  apply Nat.eqb_eq in Hb. apply has_shape_shaped in Hk.
  destruct Hk as [Hlen Hrows]. repeat split; auto.
  revert Hrows. apply Forall_impl. intros row [Hrow _]. exact Hrow.
Qed.

Lemma dense_vector_shaped :
  forall inputs units layer (x : tensor R 1),
    Keras.dense_shape inputs units layer = true ->
    shaped 1 [inputs] x ->
    exists y : tensor R 1,
      Keras.dense_vector layer x = Ok y /\ shaped 1 [units] y
      /\ y = affine x (Keras.kernel layer) (Keras.bias layer).
Proof.
  intros inputs units layer x Hfit [Hlen _].
  destruct (dense_shape_spec _ _ _ Hfit) as [Hk [Hrows Hb]].
  unfold Keras.dense_vector.
  replace (Nat.eqb (List.length x) (List.length (Keras.kernel layer))) with true
    by (symmetry; apply Nat.eqb_eq; congruence).
  eexists. split; [reflexivity |]. split; [| reflexivity].
  split.
  - apply affine_length; assumption.
  - apply Forall_forall. reflexivity.
Qed.

Lemma dense_1_shaped :
  forall inputs units layer b (x : tensor R 2),
    Keras.dense_shape inputs units layer = true ->
    shaped 2 [b; inputs] x ->
    exists y : tensor R 2, Keras.dense 1 layer x = Ok y /\ shaped 2 [b; units] y.
Proof.
  intros inputs units layer b x Hfit Hx.
  apply (mapM_shaped (A := R) (B := R) 1 1 (Keras.dense 0 layer)
           [inputs] [units] b x); [| exact Hx].
  intros v Hv.
  destruct (dense_vector_shaped inputs units layer v Hfit Hv) as [y [Hy [Hs _]]].
  exists y. split; assumption.
Qed.

Lemma dense_2_shaped :
  forall inputs units layer b L (x : tensor R 3),
    Keras.dense_shape inputs units layer = true ->
    shaped 3 [b; L; inputs] x ->
    exists y : tensor R 3,
      Keras.dense 2 layer x = Ok y /\ shaped 3 [b; L; units] y.
Proof.
  intros inputs units layer b L x Hfit Hx.
  apply (mapM_shaped (A := R) (B := R) 2 2 (Keras.dense 1 layer)
           [L; inputs] [L; units] b x); [| exact Hx].
  intros m Hm. apply dense_1_shaped with (inputs := inputs); assumption.
Qed.

(** ** Reshaping and reducing *)

Lemma expand_dims_last_shaped :
  forall {A : Type} (b L : nat) (t : tensor A 2),
    shaped 2 [b; L] t -> shaped 3 [b; L; 1] (expand_dims_last 2 t).
Proof.
  intros A b L t [Hb Hrows]. split.
  - simpl. rewrite length_map. exact Hb.
  - simpl. apply Forall_map. revert Hrows. apply Forall_impl.
    intros row [HL _]. split.
    + rewrite length_map. exact HL.
    + apply Forall_map. apply Forall_forall. intros x _.
      split; [reflexivity |]. constructor; [reflexivity | constructor].
Qed.

Lemma reduce_sum_last_shaped :
  forall (b L d : nat) (t : tensor R 3),
    shaped 3 [b; L; d] t -> shaped 2 [b; L] (reduce_sum_last 2 t).
Proof.
  intros b L d t [Hb Hrows]. split.
  - simpl. rewrite length_map. exact Hb.
  - simpl. apply Forall_map. revert Hrows. apply Forall_impl.
    intros m [HL _]. split.
    + rewrite length_map. exact HL.
    + apply Forall_map. apply Forall_forall. reflexivity.
Qed.

Lemma l2_normalize_shaped :
  forall (b L d : nat) (t : tensor R 3),
    shaped 3 [b; L; d] t -> shaped 3 [b; L; d] (l2_normalize 2 t).
Proof.
  intros b L d t [Hb Hrows]. split.
  - simpl. rewrite length_map. exact Hb.
  - simpl. apply Forall_map. revert Hrows. apply Forall_impl.
    intros m [HL Hm]. split.
    + rewrite length_map. exact HL.
    + apply Forall_map. revert Hm. apply Forall_impl.
      intros v [Hd _]. split.
      * rewrite length_map. exact Hd.
      * apply Forall_forall. reflexivity.
Qed.

Lemma squeeze_expand_dims_last :
  forall {A : Type} (n : nat) (t : tensor A n),
    squeeze_last n (expand_dims_last n t) = Ok t.
Proof.
  intros A n. induction n as [| n IH]; intros t.
  - reflexivity.
  - change (mapM (squeeze_last n) (List.map (expand_dims_last n) t) = Ok t).
    induction t as [| x t IHt]; [reflexivity |].
    cbn [List.map mapM]. rewrite IH. cbn [bind]. rewrite IHt. reflexivity.
Qed.

(** A tensor whose last axis has extent 1 is a tensor of one rank less with
    that axis added. *)
Lemma last_axis_one :
  forall {A : Type} (b L : nat) (e : tensor A 3),
    shaped 3 [b; L; 1] e ->
    exists e2 : tensor A 2, e = expand_dims_last 2 e2 /\ shaped 2 [b; L] e2.
Proof.
  intros A b L e. revert b.
  assert (Hrow : forall (m : tensor A 2),
             Forall (shaped 1 [1]) m ->
             exists row : tensor A 1, m = expand_dims_last 1 row
                                      /\ List.length row = List.length m).
  { induction m as [| v m IH]; intros Hm.
    - exists []. split; reflexivity.
    - inversion Hm as [| v' m' [Hv _] Hrest]; subst.
      destruct v as [| x [| x' v]]; try discriminate.
      destruct (IH Hrest) as [row [Hrow Hlen]].
      exists (x :: row). simpl. rewrite Hrow at 1. rewrite Hlen. auto. }
  induction e as [| m e IH]; intros b [Hb He].
  - exists []. simpl in *. repeat split; auto.
  - inversion He as [| m' e' [HL Hm] Hrest]; subst.
    destruct (Hrow m Hm) as [row [Hr Hlen]].
    destruct (IH (List.length e)) as [e2 [He2 [Hb2 Hs2]]];
      [split; [reflexivity | exact Hrest] |].
    exists (row :: e2). split.
    + simpl. rewrite Hr, He2. reflexivity.
    + split; [simpl; rewrite Hb2; reflexivity |].
      constructor; [| exact Hs2].
      split; [exact Hlen |]. apply Forall_forall. reflexivity.
Qed.

Lemma cast_shaped :
  forall (n : nat) (s : list nat) (t : tensor Z n),
    shaped n s t -> shaped n s (cast n t).
Proof. intros n s t. apply tmap_shaped. Qed.

(** ** Configuration of the recurrent layers *)

Example lower_GRU : lower "GRU" = "gru".
Proof. reflexivity. Qed.

Example encoder_rnn_rejected :
  Encoder.init 20 8 10 5 "rnn" false None = Raise Encoder.unsupported.
Proof. reflexivity. Qed.

Example decoder_rnn_rejected :
  Decoder.init 20 8 10 5 "rnn" None = Raise Decoder.unsupported.
Proof. reflexivity. Qed.

(** C8. An encoder or a decoder asked for a cell kind other than the two
    supported ones is not built: [__init__] raises, whatever the other
    arguments are, and no layer with a default cell comes out of it. *)
Theorem unsupported_rnn_type_raises_at_construction :
  forall (vocab_size embedding_dim n_units batch_sz : nat) (rnn_type : string)
         (bidirectional : bool) (embedding_matrix : option (tensor R 2)),
    supported_rnn_type rnn_type = false ->
    Encoder.init vocab_size embedding_dim n_units batch_sz rnn_type
                 bidirectional embedding_matrix
      = Raise Encoder.unsupported
    /\ Decoder.init vocab_size embedding_dim n_units batch_sz rnn_type
                    embedding_matrix
       = Raise Decoder.unsupported.
Proof.
  intros vocab_size embedding_dim n_units batch_sz rnn_type bidirectional
         embedding_matrix Hkind.
  unfold supported_rnn_type in Hkind.
  apply orb_false_elim in Hkind as [Hgru Hlstm].
  unfold Encoder.init, Decoder.init.
  rewrite Hgru, Hlstm. split; reflexivity.
Qed.

Lemma unsupported_rnn_type_raises_at_construction_witness :
  Encoder.init 20 8 10 5 "rnn" true None = Raise Encoder.unsupported
  /\ Decoder.init 20 8 10 5 "rnn" None = Raise Decoder.unsupported.
Proof.
  apply (unsupported_rnn_type_raises_at_construction 20 8 10 5 "rnn" true None).
  reflexivity.
Defined.

(** A layer that was built has one of the two supported cell kinds, so the
    last branch of the forward pass and of [initialize_hidden_state] is not
    reached from a built layer. *)
Lemma encoder_built_is_supported :
  forall vocab_size embedding_dim enc_units batch_sz rnn_type bidirectional
         embedding_matrix self,
    Encoder.init vocab_size embedding_dim enc_units batch_sz rnn_type
                 bidirectional embedding_matrix = Ok self ->
    supported_rnn_type (Encoder.rnn_type self) = true
    /\ Encoder.rnn_type self = rnn_type
    /\ Encoder.bidirectional self = bidirectional
    /\ Encoder.enc_units self = enc_units
    /\ Encoder.batch_sz self = batch_sz.
Proof.
  intros vocab_size embedding_dim enc_units batch_sz rnn_type bidirectional
         embedding_matrix self.
  unfold Encoder.init, supported_rnn_type.
  destruct (lower rnn_type =? "gru") eqn:Hgru;
    [| destruct (lower rnn_type =? "lstm") eqn:Hlstm ];
    simpl; intros Hbuilt; inversion Hbuilt; subst; simpl;
    rewrite ?Hgru, ?Hlstm; auto.
Qed.

(** ** The zero states of the encoder *)

Lemma zeros_has_shape :
  forall rows cols, has_shape 2 [rows; cols] (zeros rows cols) = true.
Proof.
  intros rows cols. unfold zeros. simpl.
  rewrite repeat_length, Nat.eqb_refl. simpl.
  apply forallb_forall. intros row Hrow.
  apply repeat_spec in Hrow. subst row.
  rewrite repeat_length, Nat.eqb_refl. simpl.
  apply forallb_forall. reflexivity.
Qed.

Lemma zeros_all_zero : forall rows cols, all_zero (zeros rows cols).
Proof.
  intros rows cols. unfold all_zero, zeros.
  apply Forall_forall. intros row Hrow.
  apply repeat_spec in Hrow. subst row.
  apply Forall_forall. intros x Hx.
  apply repeat_spec in Hx. exact Hx.
Qed.

(** C9. [initialize_hidden_state] of an encoder of a supported cell kind
    returns states that are all the zero tensor of shape (batch size, units);
    there are as many as the configuration has: 4 for a bidirectional LSTM
    encoder and 1 for a one-directional GRU encoder. *)
Theorem initialize_hidden_state_zero_states :
  forall (self : Encoder.t) (batch_size : option nat),
    supported_rnn_type (Encoder.rnn_type self) = true ->
    let rows :=
      match batch_size with None => Encoder.batch_sz self | Some b => b end in
    exists h : Encoder.hidden,
      Encoder.initialize_hidden_state self batch_size = Ok h
      /\ Forall (fun state =>
                   state = zeros rows (Encoder.enc_units self)
                   /\ has_shape 2 [rows; Encoder.enc_units self] state = true
                   /\ all_zero state)
                (Encoder.states_of h)
      /\ Encoder.state_count h = configured_states self
      /\ (lower (Encoder.rnn_type self) = "lstm" ->
          Encoder.bidirectional self = true -> Encoder.state_count h = 4)
      /\ (lower (Encoder.rnn_type self) = "gru" ->
          Encoder.bidirectional self = false -> Encoder.state_count h = 1).
Proof.
  intros self batch_size Hkind rows.
  assert (Hz : zeros rows (Encoder.enc_units self)
               = zeros rows (Encoder.enc_units self)
               /\ has_shape 2 [rows; Encoder.enc_units self]
                    (zeros rows (Encoder.enc_units self)) = true
               /\ all_zero (zeros rows (Encoder.enc_units self))).
  { split; [reflexivity | split; [apply zeros_has_shape | apply zeros_all_zero]]. }
  unfold supported_rnn_type in Hkind.
  unfold Encoder.initialize_hidden_state, configured_states.
  fold rows.
  destruct (lower (Encoder.rnn_type self) =? "gru") eqn:Hgru.
  - apply String.eqb_eq in Hgru.
    destruct (Encoder.bidirectional self) eqn:Hbi; eexists;
      (split; [reflexivity |]);
      cbn [Encoder.states_of Encoder.state_count List.length];
      (split; [repeat (apply Forall_cons; [exact Hz |]); apply Forall_nil |]);
      (split; [reflexivity |]);
      split; intros Hname Hdir; congruence.
  - simpl in Hkind. rewrite Hkind.
    apply String.eqb_neq in Hgru. apply String.eqb_eq in Hkind.
    destruct (Encoder.bidirectional self) eqn:Hbi; eexists;
      (split; [reflexivity |]);
      cbn [Encoder.states_of Encoder.state_count List.length];
      (split; [repeat (apply Forall_cons; [exact Hz |]); apply Forall_nil |]);
      (split; [reflexivity |]);
      split; intros Hname Hdir; congruence.
Qed.

Lemma initialize_hidden_state_zero_states_witness :
  exists h : Encoder.hidden,
    Encoder.initialize_hidden_state lstm_bidirectional_encoder None = Ok h
    /\ Forall (fun state =>
                 state = zeros 5 10
                 /\ has_shape 2 [5; 10] state = true
                 /\ all_zero state)
              (Encoder.states_of h)
    /\ Encoder.state_count h = configured_states lstm_bidirectional_encoder
    /\ (lower "lstm" = "lstm" -> true = true -> Encoder.state_count h = 4)
    /\ (lower "lstm" = "gru" -> true = false -> Encoder.state_count h = 1).
Proof.
  apply (initialize_hidden_state_zero_states lstm_bidirectional_encoder None).
  reflexivity.
Defined.

Example lstm_bidirectional_four_states :
  Encoder.initialize_hidden_state lstm_bidirectional_encoder None
  = Ok (Encoder.Many [zeros 5 10; zeros 5 10; zeros 5 10; zeros 5 10]).
Proof. reflexivity. Qed.

Example gru_one_state :
  forall self,
    Encoder.init 20 8 10 5 "GRU" false None = Ok self ->
    Encoder.initialize_hidden_state self (Some 3) = Ok (Encoder.One (zeros 3 10)).
Proof. intros self Hbuilt. inversion Hbuilt. reflexivity. Qed.

(** ** Configuration of the attention layer *)

Example score_type_case_is_ignored :
  supported_score_type "Dot-Product" = true.
Proof. reflexivity. Qed.

(** [Attention.__init__] stores what it is given and never raises. *)
Lemma attention_init_never_raises :
  forall units score_type mask_index va w1 w2 w3,
    Attention.init units score_type mask_index va w1 w2 w3
    = Ok (Attention.mk units score_type mask_index va w1 w2 w3).
Proof. reflexivity. Qed.

(** With a score type that is not one of the four, no branch binds [e] and
    the first scoring raises [UnboundLocalError]. *)
Lemma unsupported_score_type_fails_when_scoring :
  forall self enc_output curr_dec_hidden encoder_pad_mask prev_coverage,
    supported_score_type (Attention.score_type self) = false ->
    Attention.attention_score self enc_output curr_dec_hidden encoder_pad_mask
                              prev_coverage
    = Raise (UnboundLocalError "e").
Proof.
  intros self enc_output curr_dec_hidden encoder_pad_mask prev_coverage Hkind.
  unfold supported_score_type in Hkind.
  apply orb_false_elim in Hkind as [Hkind Hcos].
  apply orb_false_elim in Hkind as [Hkind Hgen].
  apply orb_false_elim in Hkind as [Hadd Hdot].
  unfold Attention.attention_score, Attention.raw_score.
  rewrite Hadd, Hdot, Hgen, Hcos. reflexivity.
Qed.

(** C6. The attention layer is built with the score type "bilinear", which
    is not one of the four: [__init__] returns a layer, and the name is
    refused only when the layer scores for the first time, by an
    [UnboundLocalError] on [e]. *)
Theorem unsupported_score_type_is_built :
  forall (units : nat) (mask_index : option Z) (va w1 w2 w3 : Keras.Dense),
    supported_score_type "bilinear" = false
    /\ exists self : Attention.t,
         Attention.init units "bilinear" mask_index va w1 w2 w3 = Ok self
         /\ forall enc_output curr_dec_hidden encoder_pad_mask prev_coverage,
              Attention.attention_score self enc_output curr_dec_hidden
                                        encoder_pad_mask prev_coverage
              = Raise (UnboundLocalError "e").
Proof.
  intros units mask_index va w1 w2 w3.
  split; [reflexivity |].
  eexists. split; [reflexivity |].
  intros. apply unsupported_score_type_fails_when_scoring. reflexivity.
Qed.

(** C10. Two attention layers that differ in nothing but [mask_index]
    return the same context vector, attention distribution and coverage on
    every input. *)
Theorem mask_index_is_not_read :
  forall (l1 l2 : Attention.t) (dec_hidden : tensor R 2)
         (enc_output : tensor R 3) (encoder_pad_mask : tensor Z 2)
         (use_coverage : bool) (prev_coverage : option (tensor R 3)),
    Attention.units l1 = Attention.units l2 ->
    Attention.score_type l1 = Attention.score_type l2 ->
    Attention.va l1 = Attention.va l2 ->
    Attention.w1 l1 = Attention.w1 l2 ->
    Attention.w2 l1 = Attention.w2 l2 ->
    Attention.w3 l1 = Attention.w3 l2 ->
    Attention.call l1 dec_hidden enc_output encoder_pad_mask use_coverage
                   prev_coverage
    = Attention.call l2 dec_hidden enc_output encoder_pad_mask use_coverage
                     prev_coverage.
Proof.
  intros [u1 s1 m1 va1 w11 w21 w31] [u2 s2 m2 va2 w12 w22 w32]
         dec_hidden enc_output encoder_pad_mask use_coverage prev_coverage.
  simpl. intros Hu Hs Hva Hw1 Hw2 Hw3. subst.
  reflexivity.
Qed.

Lemma mask_index_is_not_read_witness :
  Attention.call (Attention.mk 10 "dot-product" None
                               no_weights no_weights no_weights no_weights)
                 [[1; 2]]%R [[[1; 0]; [0; 1]]]%R [[1; 0]]%Z true None
  = Attention.call (Attention.mk 10 "dot-product" (Some 7%Z)
                                 no_weights no_weights no_weights no_weights)
                   [[1; 2]]%R [[[1; 0]; [0; 1]]]%R [[1; 0]]%Z true None.
Proof.
  apply mask_index_is_not_read; reflexivity.
Defined.

(** The same holds of the layers as [__init__] builds them. *)
Lemma mask_index_is_not_read_from_init :
  forall units score_type m1 m2 va w1 w2 w3 dec_hidden enc_output
         encoder_pad_mask use_coverage prev_coverage,
    (l1 <- Attention.init units score_type m1 va w1 w2 w3 ;;
     Attention.call l1 dec_hidden enc_output encoder_pad_mask use_coverage
                    prev_coverage)
    = (l2 <- Attention.init units score_type m2 va w1 w2 w3 ;;
       Attention.call l2 dec_hidden enc_output encoder_pad_mask use_coverage
                      prev_coverage).
Proof. reflexivity. Qed.

(** ** Scoring *)

Lemma broadcast_refl : forall s, broadcast s s s.
Proof. induction s; constructor; assumption. Qed.

(** The shapes that valid inputs have. *)
Lemma valid_inputs_shapes :
  forall self b L d dh enc_output curr_dec_hidden encoder_pad_mask prev_coverage,
    valid_inputs self b L d dh enc_output curr_dec_hidden encoder_pad_mask
                 prev_coverage = true ->
    shaped 3 [b; L; d] enc_output
    /\ shaped 2 [b; L] encoder_pad_mask
    /\ match prev_coverage with
       | None => True
       | Some prev => shaped 3 [b; L; 1] prev
       end.
Proof.
  intros self b L d dh enc h mask prev Hvalid.
  unfold valid_inputs in Hvalid.
  repeat rewrite andb_true_iff in Hvalid.
  destruct Hvalid as [[[Henc _] Hmask] Hprev].
  split; [apply has_shape_shaped; exact Henc |].
  split; [apply has_shape_shaped; exact Hmask |].
  destruct prev as [prev |]; [| exact I].
  apply andb_true_iff in Hprev as [Hprev _].
  apply has_shape_shaped. exact Hprev.
Qed.

(** Runs the next statement of a method: [lemma] gives its result [y] and
    the shape [Hy] of the result. *)
Ltac run_as lemma y Hy :=
  let Hrun := fresh "Hrun" in
  destruct lemma as [y [Hrun Hy]]; rewrite Hrun; cbn [bind]; clear Hrun.

(** The product of the encoder outputs with one vector per batch item,
    summed over the features: one score per batch item and position. *)
Lemma dot_scores_shaped :
  forall (b L d : nat) (x y : tensor R 3),
    shaped 3 [b; L; d] x -> shaped 3 [b; 1; d] y ->
    exists e,
      (p <- bop Rmult 3 x y ;;
       Ok (expand_dims_last 2 (reduce_sum_last 2 p))) = Ok e
      /\ shaped 3 [b; L; 1] e.
Proof.
  intros b L d x y Hx Hy.
  assert (Hbc : broadcast [b; L; d] [b; 1; d] [b; L; d])
    by apply broadcast_same, broadcast_right, broadcast_same, broadcast_nil.
  run_as (bop_broadcast Rmult 3 _ _ _ x y Hbc Hx Hy) p Hp.
  eexists. split; [reflexivity |].
  apply expand_dims_last_shaped.
  apply reduce_sum_last_shaped with (d := d). exact Hp.
Qed.

(** On valid inputs every one of the four score types binds [e] to one
    score per batch item and position. *)
Lemma raw_score_shaped :
  forall self b L d dh enc_output curr_dec_hidden encoder_pad_mask prev_coverage,
    valid_inputs self b L d dh enc_output curr_dec_hidden encoder_pad_mask
                 prev_coverage = true ->
    exists e,
      Attention.raw_score self enc_output curr_dec_hidden prev_coverage = Ok e
      /\ shaped 3 [b; L; 1] e.
Proof.
  intros self b L d dh enc h mask prev Hvalid.
  unfold valid_inputs in Hvalid.
  repeat rewrite andb_true_iff in Hvalid.
  destruct Hvalid as [[[Henc Hh] _] Hw].
  apply has_shape_shaped in Henc, Hh.
  assert (Hfit : weights_fit self d dh
                   (match prev with Some _ => true | None => false end) = true
                 /\ match prev with
                    | Some p => shaped 3 [b; L; 1] p
                    | None => True
                    end).
  { destruct prev as [p |]; [| split; [exact Hw | exact I]].
    apply andb_true_iff in Hw as [Hp Hw].
    split; [exact Hw | apply has_shape_shaped; exact Hp]. }
  clear Hw. destruct Hfit as [Hw Hprev].
  unfold Attention.raw_score. unfold weights_fit in Hw.
  destruct (lower (Attention.score_type self) =? "additive-concat").
  - repeat rewrite andb_true_iff in Hw.
    destruct Hw as [[[Hw1 Hw2] Hva] Hw3].
    assert (Hbc : broadcast [b; L; Attention.units self]
                            [b; 1; Attention.units self]
                            [b; L; Attention.units self])
      by apply broadcast_same, broadcast_right, broadcast_same, broadcast_nil.
    destruct prev as [p |].
    + run_as (dense_2_shaped _ _ _ b L enc Hw1 Henc) a Ha.
      run_as (dense_2_shaped _ _ _ b 1 h Hw2 Hh) a2 Ha2.
      run_as (bop_broadcast Rplus 3 _ _ _ a a2 Hbc Ha Ha2) s Hs.
      run_as (dense_2_shaped _ _ _ b L p Hw3 Hprev) c Hc.
      run_as (bop_broadcast Rplus 3 _ _ _ s c (broadcast_refl _) Hs Hc) s' Hs'.
      apply dense_2_shaped with (inputs := Attention.units self);
        [exact Hva | apply tmap_shaped; exact Hs'].
    + run_as (dense_2_shaped _ _ _ b L enc Hw1 Henc) a Ha.
      run_as (dense_2_shaped _ _ _ b 1 h Hw2 Hh) a2 Ha2.
      run_as (bop_broadcast Rplus 3 _ _ _ a a2 Hbc Ha Ha2) s Hs.
      apply dense_2_shaped with (inputs := Attention.units self);
        [exact Hva | apply tmap_shaped; exact Hs].
  - destruct (lower (Attention.score_type self) =? "dot-product").
    { apply Nat.eqb_eq in Hw. subst dh.
      apply dot_scores_shaped with (d := d); assumption. }
    destruct (lower (Attention.score_type self) =? "general").
    { run_as (dense_2_shaped _ _ _ b 1 h Hw Hh) temp_vector Htv.
      apply dot_scores_shaped with (d := d); assumption. }
    destruct (lower (Attention.score_type self) =? "cosine-similarity");
      [| discriminate].
    apply Nat.eqb_eq in Hw. subst dh. cbv zeta.
    apply dot_scores_shaped with (d := d);
      apply l2_normalize_shaped; assumption.
Qed.

(** ** Masking and the softmax *)

Lemma colsum_singletons :
  forall (f : R -> R) (x : R) (l : list R),
    colsum (List.map (fun y => [f y]) (x :: l)) = [sum (List.map f (x :: l))].
Proof.
  intros f x l. revert x.
  induction l as [| y l IH]; intros x.
  - simpl. unfold sum. simpl. f_equal. ring.
  - change (zip_with Rplus [f x] (colsum (List.map (fun y => [f y]) (y :: l)))
            = [sum (List.map f (x :: y :: l))]).
    rewrite IH. reflexivity.
Qed.

(** The softmax over axis 1 of a tensor with one column per batch item is
    the softmax of each column. *)
Lemma softmax_axis1_expand_dims :
  forall z : tensor R 2,
    softmax_axis1 (expand_dims_last 2 z)
    = expand_dims_last 2 (List.map softmax_over_positions z : tensor R 2).
Proof.
  intros z. unfold softmax_axis1.
  change (expand_dims_last 2 z)
    with (List.map (List.map (fun x : R => [x])) z).
  change (expand_dims_last 2 (List.map softmax_over_positions z : tensor R 2))
    with (List.map (List.map (fun x : R => [x]))
                   (List.map softmax_over_positions z)).
  rewrite !map_map. apply map_ext. intros row.
  change (tmap exp 2 (List.map (fun x : R => [x]) row))
    with (List.map (List.map exp) (List.map (fun x : R => [x]) row)).
  cbv zeta.
  destruct row as [| x row]; [reflexivity |].
  rewrite (map_map (fun x : R => [x]) (List.map exp)).
  change (fun x0 : R => List.map exp [x0]) with (fun y : R => [exp y]).
  rewrite (colsum_singletons exp x row).
  unfold softmax_over_positions. rewrite !map_map.
  apply map_ext. intros y. reflexivity.
Qed.

Lemma map_zip_with :
  forall {A B C D : Type} (g : C -> D) (f : A -> B -> C) (xs : list A)
         (ys : list B),
    List.map g (zip_with f xs ys) = zip_with (fun x y => g (f x y)) xs ys.
Proof.
  intros A B C D g f xs. induction xs as [| x xs IH]; intros [| y ys]; simpl;
    try reflexivity. rewrite IH. reflexivity.
Qed.

Lemma zip_with_map_r :
  forall {A B B' C : Type} (f : A -> B -> C) (h : B' -> B) (xs : list A)
         (ys : list B'),
    zip_with f xs (List.map h ys) = zip_with (fun x y => f x (h y)) xs ys.
Proof.
  intros A B B' C f h xs. induction xs as [| x xs IH]; intros [| y ys]; simpl;
    try reflexivity. rewrite IH. reflexivity.
Qed.

Lemma zip_with_ext :
  forall {A B C : Type} (f g : A -> B -> C) (xs : list A) (ys : list B),
    (forall x y, f x y = g x y) -> zip_with f xs ys = zip_with g xs ys.
Proof.
  intros A B C f g xs ys Hfg. revert ys.
  induction xs as [| x xs IH]; intros [| y ys]; simpl; try reflexivity.
  rewrite Hfg, IH. reflexivity.
Qed.

(** Whatever the score type has bound [e] to, [attention_score] returns the
    softmax over the positions of [e] times the mask. *)
Lemma attention_score_of_raw_score :
  forall self b L enc_output curr_dec_hidden encoder_pad_mask prev_coverage e,
    Attention.raw_score self enc_output curr_dec_hidden prev_coverage = Ok e ->
    shaped 3 [b; L; 1] e ->
    shaped 2 [b; L] encoder_pad_mask ->
    exists scores : tensor R 2,
      e = expand_dims_last 2 scores
      /\ shaped 2 [b; L] scores
      /\ Attention.attention_score self enc_output curr_dec_hidden
                                   encoder_pad_mask prev_coverage
         = Ok (expand_dims_last 2 (masked_softmax scores encoder_pad_mask)).
Proof.
  intros self b L enc h mask prev e Hraw He Hmask.
  destruct (last_axis_one b L e He) as [scores [Hexp Hscores]].
  exists scores. split; [exact Hexp |]. split; [exact Hscores |].
  unfold Attention.attention_score.
  rewrite Hraw. cbn [bind]. rewrite Hexp.
  rewrite squeeze_expand_dims_last. cbn [bind].
  rewrite (bop_same_shape Rmult 2 [b; L] scores (cast 2 mask) Hscores
             (cast_shaped 2 [b; L] mask Hmask)).
  cbn [bind]. rewrite softmax_axis1_expand_dims.
  do 2 f_equal.
  change (tzip Rmult 2 scores (cast 2 mask))
    with (zip_with (zip_with Rmult) scores
                   (List.map (List.map IZR) mask)).
  unfold masked_softmax.
  rewrite zip_with_map_r, map_zip_with.
  apply zip_with_ext. intros row m.
  rewrite zip_with_map_r. reflexivity.
Qed.

(** On valid inputs [attention_score] returns, and what it returns is the
    masked softmax of the scores [raw_score] has bound. *)
Lemma attention_score_on_valid_inputs :
  forall (self : Attention.t) (b L d dh : nat)
         (enc_output curr_dec_hidden : tensor R 3)
         (encoder_pad_mask : tensor Z 2) (prev_coverage : option (tensor R 3)),
    valid_inputs self b L d dh enc_output curr_dec_hidden encoder_pad_mask
                 prev_coverage = true ->
    exists scores : tensor R 2,
      has_shape 2 [b; L] scores = true
      /\ Attention.raw_score self enc_output curr_dec_hidden prev_coverage
         = Ok (expand_dims_last 2 scores)
      /\ Attention.attention_score self enc_output curr_dec_hidden
                                   encoder_pad_mask prev_coverage
         = Ok (expand_dims_last 2 (masked_softmax scores encoder_pad_mask)).
Proof.
  intros self b L d dh enc h mask prev Hvalid.
  destruct (raw_score_shaped self b L d dh enc h mask prev Hvalid)
    as [e [Hraw He]].
  assert (Hmask : shaped 2 [b; L] mask).
  { unfold valid_inputs in Hvalid.
    repeat rewrite andb_true_iff in Hvalid.
    destruct Hvalid as [[[_ _] Hmask] _].
    apply has_shape_shaped. exact Hmask. }
  destruct (attention_score_of_raw_score self b L enc h mask prev e Hraw He Hmask)
    as [scores [Hexp [Hscores Hatt]]].
  exists scores. split; [apply has_shape_shaped; exact Hscores |].
  split; [rewrite <- Hexp; exact Hraw | exact Hatt].
Qed.

Lemma weights_fit_supported :
  forall self d dh coverage,
    weights_fit self d dh coverage = true ->
    supported_score_type (Attention.score_type self) = true.
Proof.
  intros self d dh coverage. unfold weights_fit, supported_score_type.
  destruct (lower (Attention.score_type self) =? "additive-concat");
    [reflexivity |].
  destruct (lower (Attention.score_type self) =? "dot-product");
    [reflexivity |].
  destruct (lower (Attention.score_type self) =? "general"); [reflexivity |].
  destruct (lower (Attention.score_type self) =? "cosine-similarity");
    [reflexivity | discriminate].
Qed.

Lemma valid_inputs_supported :
  forall self b L d dh enc_output curr_dec_hidden encoder_pad_mask prev_coverage,
    valid_inputs self b L d dh enc_output curr_dec_hidden encoder_pad_mask
                 prev_coverage = true ->
    supported_score_type (Attention.score_type self) = true.
Proof.
  intros self b L d dh enc h mask prev Hvalid.
  unfold valid_inputs in Hvalid.
  repeat rewrite andb_true_iff in Hvalid.
  destruct Hvalid as [_ Hw].
  destruct prev as [prev |].
  - apply andb_true_iff in Hw as [_ Hw].
    apply weights_fit_supported with (1 := Hw).
  - apply weights_fit_supported with (1 := Hw).
Qed.

(** C3. On valid inputs, for each of the four score types, the attention
    distribution [attention_score] returns is the softmax over the input
    positions of the raw scores multiplied by the padding mask: the mask is
    applied to the scores, and the softmax comes after it. *)
Theorem attention_score_is_masked_softmax :
  forall (self : Attention.t) (b L d dh : nat)
         (enc_output curr_dec_hidden : tensor R 3)
         (encoder_pad_mask : tensor Z 2) (prev_coverage : option (tensor R 3)),
    valid_inputs self b L d dh enc_output curr_dec_hidden encoder_pad_mask
                 prev_coverage = true ->
    supported_score_type (Attention.score_type self) = true
    /\ exists scores : tensor R 2,
         has_shape 2 [b; L] scores = true
         /\ Attention.raw_score self enc_output curr_dec_hidden prev_coverage
            = Ok (expand_dims_last 2 scores)
         /\ Attention.attention_score self enc_output curr_dec_hidden
                                      encoder_pad_mask prev_coverage
            = Ok (expand_dims_last 2 (masked_softmax scores encoder_pad_mask)).
Proof.
  intros self b L d dh enc h mask prev Hvalid.
  split.
  - apply valid_inputs_supported with (1 := Hvalid).
  - apply attention_score_on_valid_inputs with (d := d) (dh := dh).
    exact Hvalid.
Qed.

Lemma attention_score_is_masked_softmax_witness :
  exists scores : tensor R 2,
    has_shape 2 [1; 2] scores = true
    /\ Attention.raw_score dot_product_layer two_positions one_state None
       = Ok (expand_dims_last 2 scores)
    /\ Attention.attention_score dot_product_layer two_positions one_state
                                 second_is_padding None
       = Ok (expand_dims_last 2 (masked_softmax scores second_is_padding)).
Proof.
  apply (attention_score_is_masked_softmax dot_product_layer 1 2 1 1
           two_positions one_state second_is_padding None).
  reflexivity.
Defined.

(** ** What the softmax gives a padded position *)

Lemma sum_exp_positive :
  forall (x : R) (z : list R), (0 < sum (List.map exp (x :: z)))%R.
Proof.
  intros x z. revert x. induction z as [| y z IH]; intros x.
  - unfold sum. simpl. pose proof (exp_pos x). lra.
  - specialize (IH y). unfold sum in *. simpl in *.
    pose proof (exp_pos x). lra.
Qed.

(** Every weight of a softmax is strictly positive. *)
Lemma softmax_positive :
  forall z : list R, Forall (fun w => (0 < w)%R) (softmax_over_positions z).
Proof.
  intros z. unfold softmax_over_positions.
  apply Forall_map. apply Forall_forall. intros x Hx.
  destruct z as [| y z]; [contradiction |].
  apply Rdiv_lt_0_compat; [apply exp_pos | apply sum_exp_positive].
Qed.

Lemma sum_map_div :
  forall (f : R -> R) (c : R) (z : list R),
    sum (List.map (fun x => f x / c)%R z) = (sum (List.map f z) / c)%R.
Proof.
  intros f c z. induction z as [| x z IH]; unfold sum in *; simpl.
  - unfold Rdiv. ring.
  - rewrite IH. unfold Rdiv. ring.
Qed.

(** The weights of a softmax over at least one position sum to 1, over all
    the positions, padded or not. *)
Lemma softmax_sums_to_one :
  forall (x : R) (z : list R), sum (softmax_over_positions (x :: z)) = 1%R.
Proof.
  intros x z. unfold softmax_over_positions.
  rewrite (sum_map_div exp). 
  pose proof (sum_exp_positive x z) as Hpos.
  field. lra.
Qed.

(** The weight of a position whose mask is 0 is the weight of the score 0:
    one over the sum of the exponentials. *)
Lemma masked_softmax_at_padding :
  forall (scores : list R) (mask : list Z) (i : nat),
    List.length scores = List.length mask ->
    (i < List.length mask)%nat ->
    nth i mask 1%Z = 0%Z ->
    let masked := zip_with (fun x k => x * IZR k)%R scores mask in
    nth i (softmax_over_positions masked) 0%R
    = (1 / sum (List.map exp masked))%R.
Proof.
  intros scores mask i Hlen Hi Hpad masked.
  assert (Hm : List.length masked = List.length mask).
  { unfold masked. rewrite zip_with_length; auto. }
  assert (Hnth : nth i masked 0%R = 0%R).
  { unfold masked. clear masked Hm. revert mask i Hlen Hi Hpad.
    induction scores as [| x scores IH]; intros [| k mask] i Hlen Hi Hpad;
      simpl in *; try lia.
    destruct i as [| i].
    - subst k. simpl. ring.
    - apply IH; auto; lia. }
  unfold softmax_over_positions.
  set (S := sum (List.map exp masked)).
  rewrite (nth_indep _ 0%R ((fun x => exp x / S)%R 0%R))
    by (rewrite length_map; lia).
  rewrite (map_nth (fun x => (exp x / S)%R)).
  rewrite Hnth, exp_0. reflexivity.
Qed.

(** On valid inputs with at least one position, the attention weights of
    every sequence are all strictly positive, those of the padded positions
    included, and they sum to 1 over all the positions. *)
Lemma attention_weights_on_valid_inputs :
  forall self b L d dh enc_output curr_dec_hidden encoder_pad_mask prev_coverage,
    valid_inputs self b L d dh enc_output curr_dec_hidden encoder_pad_mask
                 prev_coverage = true ->
    (0 < L)%nat ->
    exists attention : tensor R 2,
      Attention.attention_score self enc_output curr_dec_hidden
                                encoder_pad_mask prev_coverage
      = Ok (expand_dims_last 2 attention)
      /\ Forall (fun weights =>
                   Forall (fun w => (0 < w)%R) weights /\ sum weights = 1%R)
                attention.
Proof.
  intros self b L d dh enc h mask prev Hvalid HL.
  destruct (attention_score_on_valid_inputs _ _ _ _ _ _ _ _ _ Hvalid)
    as [scores [Hscores [_ Hatt]]].
  destruct (valid_inputs_shapes _ _ _ _ _ _ _ _ _ Hvalid) as [_ [Hmask _]].
  apply has_shape_shaped in Hscores.
  exists (masked_softmax scores mask). split; [exact Hatt |].
  destruct Hscores as [_ Hscores]. destruct Hmask as [_ Hmask].
  unfold masked_softmax.
  apply zip_with_Forall with (P := shaped 1 [L]) (Q := shaped 1 [L]);
    [| assumption | assumption].
  intros row m [Hrow _] [Hm _]. split; [apply softmax_positive |].
  destruct row as [| x row]; [simpl in Hrow; lia |].
  destruct m as [| k m]; [simpl in Hm; lia |].
  apply softmax_sums_to_one.
Qed.

(** C1. Two positions with zero scores, the second one padding: the padded
    position receives the weight 1/2, and the weights of the positions that
    are not padding sum to 1/2.  A padded position has the score 0 after
    masking, and the softmax gives it the weight [exp 0 / sum]. *)
Theorem padded_position_keeps_weight :
  valid_inputs dot_product_layer 1 2 1 1 two_positions one_state
               second_is_padding None = true
  /\ exists weights : list R,
       Attention.attention_score dot_product_layer two_positions one_state
                                 second_is_padding None
       = Ok (expand_dims_last 2 [weights])
       /\ nth 1 weights 0%R = (1 / 2)%R
       /\ nonpadded_mass weights [1; 0]%Z = (1 / 2)%R.
Proof.
  split; [reflexivity |].
  exists [1 / 2; 1 / 2]%R. split; [| split; [reflexivity |]].
  - unfold Attention.attention_score, Attention.raw_score, dot_product_layer,
      two_positions, one_state, second_is_padding.
    simpl. unfold sum. simpl.
    replace ((0 * 0 + 0) * 1)%R with 0%R by ring.
    replace ((0 * 0 + 0) * 0)%R with 0%R by ring.
    rewrite exp_0.
    replace (1 / (1 + 1))%R with (1 / 2)%R by field.
    reflexivity.
  - unfold nonpadded_mass, sum. simpl. field.
Qed.

(** ** The context vector *)

Lemma bop_scalar_row :
  forall (f : R -> R -> R) (w : R) (row : list R),
    bop f 1 [w] row = Ok (List.map (f w) row).
Proof.
  intros f w row.
  destruct row as [| x [| x' row]]; try reflexivity.
  change (mapM (fun y => Ok (f w y)) (x :: x' :: row)
          = Ok (List.map (f w) (x :: x' :: row))).
  apply mapM_pure with (P := fun _ => True).
  - reflexivity.
  - apply Forall_forall. auto.
Qed.

Lemma bop_weights_rows :
  forall (f : R -> R -> R) (weights : list R) (m : list (list R)),
    List.length weights = List.length m ->
    bop f 2 (expand_dims_last 1 weights) m
    = Ok (zip_with (fun w row => List.map (f w) row) weights m).
Proof.
  intros f weights m Hlen.
  change (bop f 2 (expand_dims_last 1 weights) m)
    with (if Nat.eqb (List.length (List.map (fun w : R => [w]) weights))
                     (List.length m)
          then zipM (bop f 1) (List.map (fun w : R => [w]) weights) m
          else match List.map (fun w : R => [w]) weights, m with
               | [x], _ => mapM (fun y => bop f 1 x y) m
               | _, [y] =>
                   mapM (fun x => bop f 1 x y)
                        (List.map (fun w : R => [w]) weights)
               | _, _ => Raise incompatible
               end).
  rewrite length_map, Hlen, Nat.eqb_refl.
  revert m Hlen. induction weights as [| w weights IH]; intros [| row m] Hlen;
    try discriminate; [reflexivity |].
  cbn [List.map zipM zip_with].
  rewrite bop_scalar_row. cbn [bind].
  rewrite IH by (simpl in Hlen; lia). reflexivity.
Qed.

Lemma zipM_attention_outputs :
  forall (f : R -> R -> R) (attention : list (list R))
         (outputs : list (list (list R))),
    Forall2 (fun weights m => List.length weights = List.length m)
            attention outputs ->
    zipM (bop f 2) (List.map (expand_dims_last 1) attention) outputs
    = Ok (zip_with (zip_with (fun w row => List.map (f w) row))
                   attention outputs).
Proof.
  intros f attention outputs Hall.
  induction Hall as [| weights m attention outputs Hlen Hall IH];
    [reflexivity |].
  cbn [List.map zipM zip_with].
  rewrite (bop_weights_rows f weights m Hlen). cbn [bind].
  rewrite IH. reflexivity.
Qed.

Lemma bop_attention_outputs :
  forall (f : R -> R -> R) (attention : tensor R 2) (outputs : tensor R 3),
    Forall2 (fun weights m => List.length weights = List.length m)
            attention outputs ->
    bop f 3 (expand_dims_last 2 attention) outputs
    = Ok (zip_with (zip_with (fun w row => List.map (f w) row))
                   attention outputs).
Proof.
  intros f attention outputs Hall.
  rewrite <- (zipM_attention_outputs f attention outputs Hall).
  change (bop f 3 (expand_dims_last 2 attention) outputs)
    with (if Nat.eqb (List.length (List.map (expand_dims_last 1) attention))
                     (List.length outputs)
          then zipM (bop f 2) (List.map (expand_dims_last 1) attention) outputs
          else match List.map (expand_dims_last (A := R) 1) attention, outputs with
               | [x], _ => mapM (fun y => bop f 2 x y) outputs
               | _, [y] =>
                   mapM (fun x => bop f 2 x y)
                        (List.map (expand_dims_last 1) attention)
               | _, _ => Raise incompatible
               end).
  destruct (Nat.eqb (List.length (List.map (expand_dims_last 1) attention))
                    (List.length outputs)) eqn:Hlen; [reflexivity |].
  apply Nat.eqb_neq in Hlen. exfalso. apply Hlen.
  rewrite length_map. exact (Forall2_length Hall).
Qed.

Lemma Forall2_of_shapes :
  forall {A B : Type} (P : A -> Prop) (Q : B -> Prop) (xs : list A) (ys : list B),
    List.length xs = List.length ys -> Forall P xs -> Forall Q ys ->
    Forall2 (fun x y => P x /\ Q y) xs ys.
Proof.
  intros A B P Q xs. induction xs as [| x xs IH]; intros [| y ys] Hlen Hxs Hys;
    try discriminate; constructor.
  - inversion Hxs; inversion Hys; auto.
  - inversion Hxs; inversion Hys; subst. apply IH; auto.
Qed.

Lemma map_nth_positions :
  forall (g : R -> R) (row : list R),
    List.map (fun j => g (nth j row 0%R)) (seq 0 (List.length row))
    = List.map g row.
Proof.
  intros g row. induction row as [| x row IH]; [reflexivity |].
  cbn [List.length]. rewrite <- cons_seq, <- seq_shift.
  cbn [List.map nth]. rewrite map_map. cbn [nth]. rewrite IH. reflexivity.
Qed.

Lemma zip_with_map_both :
  forall {A : Type} (f g : A -> R) (l : list A),
    zip_with Rplus (List.map f l) (List.map g l)
    = List.map (fun j => (f j + g j)%R) l.
Proof.
  intros A f g l. induction l as [| x l IH]; simpl; [reflexivity |].
  rewrite IH. reflexivity.
Qed.

(** The sum over axis 1 of the weighted encoder outputs is the weighted sum
    of the specification. *)
Lemma colsum_weighted :
  forall (d : nat) (m : list (list R)) (weights : list R),
    List.length weights = List.length m ->
    m <> [] ->
    Forall (fun row => List.length row = d) m ->
    colsum (zip_with (fun w row => List.map (Rmult w) row) weights m)
    = weighted_sum d weights m.
Proof.
  intros d m. induction m as [| row m IH]; intros weights Hlen Hne Hrows;
    [contradiction |].
  destruct weights as [| w weights]; [discriminate |].
  inversion Hrows as [| row' m' Hrow Hrest]; subst row' m'.
  assert (Hhead : List.map (Rmult w) row
                  = List.map (fun j => (w * nth j row 0)%R) (seq 0 d)).
  { rewrite <- Hrow. symmetry. apply (map_nth_positions (Rmult w)). }
  destruct m as [| row2 m].
  - destruct weights; [| discriminate].
    cbn [zip_with colsum]. rewrite Hhead. unfold weighted_sum.
    apply map_ext. intros j. unfold sum. simpl. ring.
  - destruct weights as [| w2 weights]; [discriminate |].
    specialize (IH (w2 :: weights)).
    change (zip_with Rplus (List.map (Rmult w) row)
              (colsum (zip_with (fun w row => List.map (Rmult w) row)
                                (w2 :: weights) (row2 :: m)))
            = weighted_sum d (w :: w2 :: weights) (row :: row2 :: m)).
    rewrite IH; [| simpl in *; lia | discriminate | exact Hrest].
    rewrite Hhead. unfold weighted_sum. rewrite zip_with_map_both.
    reflexivity.
Qed.

Lemma context_vector_value :
  forall (b L d : nat) (attention : tensor R 2) (enc_output : tensor R 3),
    shaped 2 [b; L] attention ->
    shaped 3 [b; L; d] enc_output ->
    (0 < L)%nat ->
    Attention.context_vector (expand_dims_last 2 attention) enc_output
    = Ok (zip_with (weighted_sum d) attention enc_output).
Proof.
  intros b L d attention enc [Hba Ha] [Hbe He] HL.
  assert (Hall : Forall2 (fun weights m =>
                            List.length weights = L
                            /\ (List.length m = L
                                /\ Forall (fun row => List.length row = d) m))
                         attention enc).
  { apply Forall2_of_shapes.
    - congruence.
    - revert Ha. apply Forall_impl. intros weights [H _]. exact H.
    - revert He. apply Forall_impl. intros m [H Hm]. split; [exact H |].
      revert Hm. apply Forall_impl. intros row [Hrow _]. exact Hrow. }
  unfold Attention.context_vector.
  rewrite bop_attention_outputs.
  - cbn [bind]. f_equal. unfold reduce_sum_axis1.
    clear Hba Hbe Ha He.
    induction Hall as [| weights m attention enc [Hw [Hm Hrows]] Hall IH];
      [reflexivity |].
    cbn [zip_with List.map]. rewrite IH. f_equal.
    apply colsum_weighted; [congruence | | exact Hrows].
    intros ->. simpl in Hm. lia.
  - revert Hall. apply Forall2_impl. intros weights m [Hw [Hm _]]. congruence.
Qed.




(** ** Coverage and the context vector of [call] *)

Lemma expand_dims_1_shaped :
  forall (b dh : nat) (dec_hidden : tensor R 2),
    shaped 2 [b; dh] dec_hidden ->
    shaped 3 [b; 1; dh] (expand_dims_1 1 dec_hidden).
Proof.
  intros b dh dec_hidden [Hb Hrows]. unfold expand_dims_1. split.
  - rewrite length_map. exact Hb.
  - apply Forall_map. revert Hrows. apply Forall_impl. intros v Hv.
    split; [reflexivity |]. constructor; [exact Hv | constructor].
Qed.

Lemma masked_softmax_shaped :
  forall (b L : nat) (scores : tensor R 2) (mask : tensor Z 2),
    shaped 2 [b; L] scores -> shaped 2 [b; L] mask ->
    shaped 2 [b; L] (masked_softmax scores mask).
Proof.
  intros b L scores mask [Hbs Hs] [Hbm Hm]. unfold masked_softmax. split.
  - rewrite zip_with_length; congruence.
  - apply zip_with_Forall with (P := shaped 1 [L]) (Q := shaped 1 [L]); auto.
    intros row m [Hrow _] [Hmask _]. split.
    + unfold softmax_over_positions.
      rewrite length_map, zip_with_length; congruence.
    + apply Forall_forall. reflexivity.
Qed.

(** On valid inputs [call] with coverage returns: the context vector of the
    attention distribution, the distribution with its last axis squeezed,
    and the accumulated coverage. *)
Lemma call_with_coverage :
  forall self b L d dh dec_hidden enc_output encoder_pad_mask prev_coverage,
    valid_inputs self b L d dh enc_output (expand_dims_1 1 dec_hidden)
                 encoder_pad_mask prev_coverage = true ->
    exists (context : tensor R 2) (attention : tensor R 2),
      shaped 2 [b; L] attention
      /\ Attention.attention_score self enc_output (expand_dims_1 1 dec_hidden)
                                   encoder_pad_mask prev_coverage
         = Ok (expand_dims_last 2 attention)
      /\ Attention.context_vector (expand_dims_last 2 attention) enc_output
         = Ok context
      /\ Attention.call self dec_hidden enc_output encoder_pad_mask true
                        prev_coverage
         = Ok (context, Rank 2 attention,
               Some (accumulate prev_coverage attention)).
Proof.
  intros self b L d dh dec_hidden enc mask prev Hvalid.
  destruct (valid_inputs_shapes _ _ _ _ _ _ _ _ _ Hvalid)
    as [Henc [Hmask Hprev]].
  destruct (attention_score_on_valid_inputs _ _ _ _ _ _ _ _ _ Hvalid)
    as [scores [Hscores [_ Hatt]]].
  apply has_shape_shaped in Hscores.
  set (attention := masked_softmax scores mask) in *.
  assert (Ha : shaped 2 [b; L] attention)
    by (apply masked_softmax_shaped; assumption).
  assert (Ha3 : shaped 3 [b; L; 1] (expand_dims_last 2 attention))
    by (apply expand_dims_last_shaped; exact Ha).
  assert (Hbc : broadcast [b; L; 1] [b; L; d] [b; L; d]).
  { apply broadcast_same, broadcast_same, broadcast_left, broadcast_nil. }
  destruct (bop_broadcast Rmult 3 _ _ _ _ _ Hbc Ha3 Henc)
    as [weighted [Hweighted _]].
  exists (reduce_sum_axis1 weighted), attention.
  split; [exact Ha |]. split; [exact Hatt |].
  assert (Hctx : Attention.context_vector (expand_dims_last 2 attention) enc
                 = Ok (reduce_sum_axis1 weighted)).
  { unfold Attention.context_vector. rewrite Hweighted. reflexivity. }
  split; [exact Hctx |].
  unfold Attention.call. rewrite Hatt. cbn [bind].
  assert (Hcov : match prev with
                 | Some prev0 => bop Rplus 3 prev0 (expand_dims_last 2 attention)
                 | None => Ok (expand_dims_last 2 attention)
                 end = Ok (accumulate prev attention)).
  { destruct prev as [prev |]; [| reflexivity].
    apply bop_same_shape with (s := [b; L; 1]); assumption. }
  rewrite Hcov. cbn [bind]. rewrite Hctx. cbn [bind].
  rewrite squeeze_expand_dims_last. reflexivity.
Qed.

Lemma weights_fit_without_coverage :
  forall self d dh,
    weights_fit self d dh true = true -> weights_fit self d dh false = true.
Proof.
  intros self d dh. unfold weights_fit.
  destruct (lower (Attention.score_type self) =? "additive-concat"); [| auto].
  repeat rewrite andb_true_iff. intros [[[H1 H2] H3] _]. auto.
Qed.

Lemma valid_decode_step :
  forall self b L d dh enc_output encoder_pad_mask states dec_hidden
         prev_coverage,
    valid_decode self b L d dh enc_output encoder_pad_mask states = true ->
    In dec_hidden states ->
    match prev_coverage with
    | None => True
    | Some prev => shaped 3 [b; L; 1] prev
    end ->
    valid_inputs self b L d dh enc_output (expand_dims_1 1 dec_hidden)
                 encoder_pad_mask prev_coverage = true.
Proof.
  intros self b L d dh enc mask states h prev Hvalid Hin Hprev.
  unfold valid_decode in Hvalid.
  repeat rewrite andb_true_iff in Hvalid.
  destruct Hvalid as [[[Henc Hmask] Hstates] Hfit].
  rewrite forallb_forall in Hstates. specialize (Hstates h Hin).
  unfold valid_inputs. rewrite Henc, Hmask.
  replace (has_shape 3 [b; 1; dh] (expand_dims_1 1 h)) with true
    by (symmetry; apply has_shape_shaped, expand_dims_1_shaped,
          has_shape_shaped; exact Hstates).
  destruct prev as [prev |]; cbn [andb].
  - apply has_shape_shaped in Hprev. rewrite Hprev, Hfit. reflexivity.
  - apply weights_fit_without_coverage. exact Hfit.
Qed.

(** C2. With coverage, the coverage [call] returns is the previous coverage
    plus the attention distribution of the step, item by item, and the
    attention distribution itself when there is no previous coverage; the
    attention distribution is the one [attention_score] computes for the
    step, from the previous coverage.  Over three steps that thread the
    coverage, the coverage is [a1] after the first step, [a1 + a2] after the
    second and [a1 + a2 + a3] after the third, where [a1], [a2] and [a3] are
    what [attention_score] computes at the three steps. *)
Theorem coverage_accumulates :
  forall (self : Attention.t) (b L d dh : nat) (enc_output : tensor R 3)
         (encoder_pad_mask : tensor Z 2) (h1 h2 h3 : tensor R 2),
    valid_decode self b L d dh enc_output encoder_pad_mask [h1; h2; h3] = true ->
    (forall prev_coverage : option (tensor R 3),
        match prev_coverage with
        | None => True
        | Some prev => has_shape 3 [b; L; 1] prev = true
        end ->
        exists (context attention : tensor R 2),
          has_shape 2 [b; L] attention = true
          /\ Attention.attention_score self enc_output (expand_dims_1 1 h1)
                                       encoder_pad_mask prev_coverage
             = Ok (expand_dims_last 2 attention)
          /\ Attention.context_vector (expand_dims_last 2 attention) enc_output
             = Ok context
          /\ Attention.call self h1 enc_output encoder_pad_mask true prev_coverage
             = Ok (context, Rank 2 attention,
                   Some (accumulate prev_coverage attention)))
    /\ exists (c1 c2 c3 a1 a2 a3 : tensor R 2),
         let cov1 := expand_dims_last 2 a1 in
         let cov2 := tzip Rplus 3 cov1 (expand_dims_last 2 a2) in
         let cov3 := tzip Rplus 3 cov2 (expand_dims_last 2 a3) in
         (Attention.attention_score self enc_output (expand_dims_1 1 h1)
                                    encoder_pad_mask None
          = Ok (expand_dims_last 2 a1)
          /\ Attention.call self h1 enc_output encoder_pad_mask true None
             = Ok (c1, Rank 2 a1, Some cov1))
         /\ (Attention.attention_score self enc_output (expand_dims_1 1 h2)
                                       encoder_pad_mask (Some cov1)
             = Ok (expand_dims_last 2 a2)
             /\ Attention.call self h2 enc_output encoder_pad_mask true (Some cov1)
                = Ok (c2, Rank 2 a2, Some cov2))
         /\ (Attention.attention_score self enc_output (expand_dims_1 1 h3)
                                       encoder_pad_mask (Some cov2)
             = Ok (expand_dims_last 2 a3)
             /\ Attention.call self h3 enc_output encoder_pad_mask true (Some cov2)
                = Ok (c3, Rank 2 a3, Some cov3)).
Proof.
  intros self b L d dh enc mask h1 h2 h3 Hvalid.
  assert (Hstep : forall h prev,
             In h [h1; h2; h3] ->
             match prev with
             | None => True
             | Some p => shaped 3 [b; L; 1] p
             end ->
             exists context attention : tensor R 2,
               shaped 2 [b; L] attention
               /\ Attention.attention_score self enc (expand_dims_1 1 h) mask prev
                  = Ok (expand_dims_last 2 attention)
               /\ Attention.context_vector (expand_dims_last 2 attention) enc
                  = Ok context
               /\ Attention.call self h enc mask true prev
                  = Ok (context, Rank 2 attention,
                        Some (accumulate prev attention))).
  { intros h prev Hin Hprev.
    exact (call_with_coverage self b L d dh h enc mask prev
             (valid_decode_step _ _ _ _ _ _ _ _ h prev Hvalid Hin Hprev)). }
  split.
  - intros prev Hprev.
    destruct (Hstep h1 prev) as [context [attention [Ha [Hatt [Hctx Hcall]]]]].
    + left. reflexivity.
    + destruct prev as [prev |]; [apply has_shape_shaped; exact Hprev | exact I].
    + exists context, attention.
      split; [apply has_shape_shaped; exact Ha |].
      split; [exact Hatt |]. split; [exact Hctx | exact Hcall].
  - destruct (Hstep h1 None) as [c1 [a1 [Ha1 [Hatt1 [_ Hcall1]]]]];
      [simpl; auto | exact I |].
    assert (Hcov1 : shaped 3 [b; L; 1] (expand_dims_last 2 a1))
      by (apply expand_dims_last_shaped; exact Ha1).
    destruct (Hstep h2 (Some (expand_dims_last 2 a1)))
      as [c2 [a2 [Ha2 [Hatt2 [_ Hcall2]]]]]; [simpl; auto | exact Hcov1 |].
    assert (Hcov2 : shaped 3 [b; L; 1]
                      (tzip Rplus 3 (expand_dims_last 2 a1)
                                    (expand_dims_last 2 a2))).
    { apply tzip_shaped; [exact Hcov1 |].
      apply expand_dims_last_shaped; exact Ha2. }
    destruct (Hstep h3 (Some (tzip Rplus 3 (expand_dims_last 2 a1)
                                              (expand_dims_last 2 a2))))
      as [c3 [a3 [Ha3 [Hatt3 [_ Hcall3]]]]]; [simpl; auto | exact Hcov2 |].
    exists c1, c2, c3, a1, a2, a3. cbv zeta.
    split; [split; [exact Hatt1 | exact Hcall1] |].
    split; split; assumption.
Qed.

Lemma coverage_accumulates_witness :
  exists (c1 c2 c3 a1 a2 a3 : tensor R 2),
    (Attention.attention_score dot_product_layer two_positions
                               (expand_dims_1 1 zero_state) second_is_padding
                               None
     = Ok (expand_dims_last 2 a1)
     /\ Attention.call dot_product_layer zero_state two_positions
                       second_is_padding true None
        = Ok (c1, Rank 2 a1, Some (expand_dims_last 2 a1)))
    /\ (Attention.attention_score dot_product_layer two_positions
                                  (expand_dims_1 1 zero_state) second_is_padding
                                  (Some (expand_dims_last 2 a1))
        = Ok (expand_dims_last 2 a2)
        /\ Attention.call dot_product_layer zero_state two_positions
                          second_is_padding true (Some (expand_dims_last 2 a1))
           = Ok (c2, Rank 2 a2,
                 Some (tzip Rplus 3 (expand_dims_last 2 a1)
                                    (expand_dims_last 2 a2))))
    /\ (Attention.attention_score dot_product_layer two_positions
                                  (expand_dims_1 1 zero_state) second_is_padding
                                  (Some (tzip Rplus 3 (expand_dims_last 2 a1)
                                                      (expand_dims_last 2 a2)))
        = Ok (expand_dims_last 2 a3)
        /\ Attention.call dot_product_layer zero_state two_positions
                          second_is_padding true
                          (Some (tzip Rplus 3 (expand_dims_last 2 a1)
                                              (expand_dims_last 2 a2)))
           = Ok (c3, Rank 2 a3,
                 Some (tzip Rplus 3
                            (tzip Rplus 3 (expand_dims_last 2 a1)
                                          (expand_dims_last 2 a2))
                            (expand_dims_last 2 a3)))).
Proof.
  apply (coverage_accumulates dot_product_layer 1 2 1 1 two_positions
           second_is_padding zero_state zero_state zero_state).
  reflexivity.
Defined.



(** ** The path without coverage *)

(** C7. On a batch of one sequence of one position, [call] with
    [use_coverage=False] raises [ValueError]: the tensor [attention_score]
    returns is unpacked into two names and has one item along its first
    axis.  With [use_coverage=True] the same call returns. *)
Theorem call_without_coverage_raises :
  Attention.call dot_product_layer [[0]]%R [[[0]]]%R [[1]]%Z false None
  = Raise (ValueError "not enough values to unpack (expected 2, got 1)")
  /\ is_ok (Attention.call dot_product_layer [[0]]%R [[[0]]]%R [[1]]%Z true None)
     = true.
Proof. split; reflexivity. Qed.

Example call_without_coverage_batch_of_two :
  is_ok (Attention.call dot_product_layer [[0]; [0]]%R [[[0]]; [[0]]]%R
                        [[1]; [1]]%Z false None) = true.
Proof. reflexivity. Qed.

Example call_without_coverage_batch_of_three :
  Attention.call dot_product_layer [[0]; [0]; [0]]%R [[[0]]; [[0]]; [[0]]]%R
                 [[1]; [1]; [1]]%Z false None
  = Raise (ValueError "too many values to unpack (expected 2)").
Proof. reflexivity. Qed.

(** Without coverage [call] returns only when [attention_score] has exactly
    two items along the batch axis. *)
Lemma call_without_coverage_needs_two :
  forall self dec_hidden enc_output encoder_pad_mask prev_coverage out,
    Attention.call self dec_hidden enc_output encoder_pad_mask false prev_coverage
    = Ok out ->
    exists a0 a1,
      Attention.attention_score self enc_output (expand_dims_1 1 dec_hidden)
                                encoder_pad_mask None
      = Ok [a0; a1].
Proof.
  intros self dec_hidden enc_output encoder_pad_mask prev_coverage out.
  unfold Attention.call.
  destruct (Attention.attention_score self enc_output
              (expand_dims_1 1 dec_hidden) encoder_pad_mask None)
    as [both | err]; simpl; [| discriminate].
  destruct both as [| a0 [| a1 [| a2 rest]]]; simpl; try discriminate.
  intros _. exists a0, a1. reflexivity.
Qed.

(** On valid inputs [call] without coverage raises unless the batch has
    exactly two sequences; on a batch of two it returns the attention
    distribution of the first sequence alone, and the context vector of
    either sequence is weighted by that distribution. *)
Lemma call_without_coverage :
  forall self b L d dh dec_hidden enc_output encoder_pad_mask prev_coverage,
    valid_inputs self b L d dh enc_output (expand_dims_1 1 dec_hidden)
                 encoder_pad_mask None = true ->
    (0 < L)%nat ->
    (b = 2%nat ->
     exists a0 a1 : tensor R 1,
       Attention.attention_score self enc_output (expand_dims_1 1 dec_hidden)
                                 encoder_pad_mask None
       = Ok (expand_dims_last 2 [a0; a1])
       /\ Attention.call self dec_hidden enc_output encoder_pad_mask false
                         prev_coverage
          = Ok (List.map (weighted_sum d a0) enc_output, Rank 1 a0, None))
    /\ (b <> 2%nat ->
        exists msg,
          Attention.call self dec_hidden enc_output encoder_pad_mask false
                         prev_coverage
          = Raise (ValueError msg)).
Proof.
  intros self b L d dh dec_hidden enc mask prev Hvalid HL.
  destruct (valid_inputs_shapes _ _ _ _ _ _ _ _ _ Hvalid)
    as [[Hbe Henc] [Hmask _]].
  destruct (call_with_coverage self b L d dh dec_hidden enc mask None Hvalid)
    as [_ [attention [[Hba Ha] [Hatt _]]]].
  unfold Attention.call. rewrite Hatt. cbn [bind].
  split.
  - intros Hb. rewrite Hb in Hba, Hbe.
    destruct attention as [| a0 [| a1 [| a2 rest]]];
      simpl in Hba; try discriminate Hba.
    destruct enc as [| m0 [| m1 [| m2 enc]]];
      simpl in Hbe; try discriminate Hbe.
    exists a0, a1. split; [reflexivity |].
    inversion Ha as [| x1 l1 [Ha0 _] _]; subst x1 l1.
    inversion Henc as [| x1 l1 [Hm0 Hr0] Henc1]; subst x1 l1.
    inversion Henc1 as [| x1 l1 [Hm1 Hr1] _]; subst x1 l1.
    assert (Hrows : forall m : tensor R 2,
               shaped 2 [L; d] m ->
               Forall (fun row => List.length row = d) m).
    { intros m [_ Hm]. revert Hm. apply Forall_impl. intros row [Hrow _].
      exact Hrow. }
    change (unpack2 (expand_dims_last 2 [a0; a1]))
      with (Ok (expand_dims_last 1 a0, expand_dims_last 1 a1)).
    cbn [bind]. unfold Attention.context_vector.
    change (bop Rmult 3 [expand_dims_last 1 a0] [m0; m1])
      with (mapM (fun y => bop Rmult 2 (expand_dims_last 1 a0) y) [m0; m1]).
    cbn [mapM].
    rewrite !bop_weights_rows by congruence. cbn [bind].
    rewrite squeeze_expand_dims_last. cbn [bind].
    unfold reduce_sum_axis1. cbn [List.map].
    rewrite !(colsum_weighted d);
      try congruence; try (apply Hrows; split; assumption);
      try (intros ->; simpl in *; lia).
    reflexivity.
  - intros Hb.
    destruct attention as [| a0 [| a1 [| a2 rest]]];
      try (eexists; reflexivity).
    simpl in Hba. congruence.
Qed.

(** ** The generation gate *)







(** ** Rounding to float32 *)

Lemma powerRZ_2_pos : forall e : Z, (0 < powerRZ 2 e)%R.
Proof. intros e. apply powerRZ_lt. lra. Qed.

Lemma powerRZ_2_add :
  forall a b : Z, powerRZ 2 (a + b) = (powerRZ 2 a * powerRZ 2 b)%R.
Proof. intros a b. apply powerRZ_add. lra. Qed.

Lemma powerRZ_2_nonneg : forall n : Z, (0 <= n)%Z -> powerRZ 2 n = IZR (2 ^ n).
Proof.
  intros n Hn. rewrite <- (Z2Nat.id n Hn) at 1. rewrite <- pow_powerRZ.
  rewrite pow_IZR. rewrite Z2Nat.id by exact Hn. reflexivity.
Qed.

Lemma powerRZ_2_le :
  forall a b : Z, (a <= b)%Z -> (powerRZ 2 a <= powerRZ 2 b)%R.
Proof.
  intros a b Hab. replace b with (a + (b - a))%Z by lia.
  rewrite powerRZ_2_add, (powerRZ_2_nonneg (b - a)) by lia.
  pose proof (powerRZ_2_pos a) as Ha.
  assert (H1 : (1 <= IZR (2 ^ (b - a)))%R).
  { apply IZR_le.
    pose proof (Z.pow_pos_nonneg 2 (b - a) ltac:(lia) ltac:(lia)). lia. }
  rewrite <- (Rmult_1_r (powerRZ 2 a)) at 1.
  apply Rmult_le_compat_l; lra.
Qed.

Lemma powerRZ_2_cancel : forall e : Z, (powerRZ 2 (- e) * powerRZ 2 e = 1)%R.
Proof.
  intros e. rewrite <- powerRZ_2_add. replace (- e + e)%Z with 0%Z by lia.
  reflexivity.
Qed.

Lemma nearest_even_IZR : forall n : Z, Float32.nearest_even (IZR n) = n.
Proof.
  intros n. unfold Float32.nearest_even. rewrite ZfloorZ.
  destruct (Rlt_dec (IZR n - IZR n) (1 / 2)) as [_ | H]; [reflexivity |].
  exfalso. apply H. lra.
Qed.


(** The search returns [e] when [x] lies in the binade of [e], or below
    every binade when [e] is the exponent the search starts from. *)
Lemma ulp_exponent_spec :
  forall (fuel : nat) (e0 e : Z) (x : R),
    (e0 <= e <= e0 + Z.of_nat fuel)%Z ->
    (Rabs x < powerRZ 2 (e + 24))%R ->
    (e = e0 \/ (powerRZ 2 (e + 23) <= Rabs x)%R) ->
    Float32.ulp_exponent fuel e0 x = e.
Proof.
  intros fuel. induction fuel as [| fuel IH]; intros e0 e x He Hlt Hge.
  - simpl. lia.
  - cbn [Float32.ulp_exponent].
    destruct (Rlt_dec (Rabs x) (powerRZ 2 (e0 + 24))) as [Hin | Hout].
    + destruct Hge as [Heq | Hge]; [symmetry; exact Heq |].
      destruct (Z.eq_dec e e0) as [Heq | Hne]; [symmetry; exact Heq |].
      exfalso. pose proof (powerRZ_2_le (e0 + 24) (e + 23) ltac:(lia)). lra.
    + apply IH; [| exact Hlt |].
      * destruct (Z.eq_dec e e0) as [Heq | Hne]; [| lia].
        exfalso. subst e. apply Hout. exact Hlt.
      * destruct (Z.eq_dec e (e0 + 1)) as [Heq | Hne]; [left; exact Heq |].
        right. destruct Hge as [Heq | Hge]; [| exact Hge].
        exfalso. subst e. apply Hout. exact Hlt.
Qed.



Lemma small_le_max_finite :
  forall N : Z, (Z.abs N < 2 ^ 24)%Z -> forall e : Z, (e <= 104)%Z ->
    (Rabs (IZR N * powerRZ 2 e) <= Float32.max_finite)%R.
Proof.
  intros N HN e He. unfold Float32.max_finite.
  rewrite Rabs_mult, (Rabs_pos_eq (powerRZ 2 e)) by (left; apply powerRZ_2_pos).
  rewrite <- abs_IZR.
  pose proof (powerRZ_2_le e 104 He) as Hp.
  pose proof (powerRZ_2_pos e) as Hpos.
  assert (H1 : (IZR (Z.abs N) <= IZR (2 ^ 24 - 1))%R) by (apply IZR_le; lia).
  assert (H0 : (0 <= IZR (Z.abs N))%R) by (apply IZR_le; lia).
  nra.
Qed.

(** A value of the format is kept by the rounding. *)
Lemma round_exact :
  forall N e : Z,
    (-149 <= e <= 104)%Z -> (Z.abs N < 2 ^ 24)%Z ->
    (e = -149 \/ 2 ^ 23 <= Z.abs N)%Z ->
    Float32.round (IZR N * powerRZ 2 e) = Float32.Finite (IZR N * powerRZ 2 e).
Proof.
  intros N e He HN Hnorm. unfold Float32.round.
  assert (Habs : Rabs (IZR N * powerRZ 2 e) = (IZR (Z.abs N) * powerRZ 2 e)%R).
  { rewrite Rabs_mult, (Rabs_pos_eq (powerRZ 2 e)) by (left; apply powerRZ_2_pos).
    rewrite <- abs_IZR. reflexivity. }
  pose proof (powerRZ_2_pos e) as Hpos.
  assert (Hexp : Float32.ulp_exponent 254 (-149) (IZR N * powerRZ 2 e) = e).
  { apply ulp_exponent_spec; [lia | |].
    - rewrite Habs. replace (e + 24)%Z with (24 + e)%Z by lia.
      rewrite powerRZ_2_add, (powerRZ_2_nonneg 24) by lia.
      apply Rmult_lt_compat_r; [exact Hpos |]. apply IZR_lt. exact HN.
    - destruct Hnorm as [Heq | Hnorm]; [left; exact Heq | right].
      rewrite Habs. replace (e + 23)%Z with (23 + e)%Z by lia.
      rewrite powerRZ_2_add, (powerRZ_2_nonneg 23) by lia.
      apply Rmult_le_compat_r; [lra |]. apply IZR_le. exact Hnorm. }
  rewrite Hexp.
  replace (IZR N * powerRZ 2 e * powerRZ 2 (- e))%R with (IZR N).
  2:{ rewrite Rmult_assoc, (Rmult_comm (powerRZ 2 e)), powerRZ_2_cancel. ring. }
  rewrite nearest_even_IZR.
  destruct (Rlt_dec Float32.max_finite (Rabs (IZR N * powerRZ 2 e))) as [Hover |];
    [| reflexivity].
  exfalso. pose proof (small_le_max_finite N HN e ltac:(lia)). lra.
Qed.

(** An integer below [2^24] is a value of the format. *)
Lemma round_integer :
  forall k : Z, (Z.abs k < 2 ^ 24)%Z ->
    Float32.round (IZR k) = Float32.Finite (IZR k).
Proof.
  intros k Hk.
  destruct (Z.eq_dec k 0) as [Hzero | Hnz].
  - subst k. replace (IZR 0) with (IZR 0 * powerRZ 2 (-149))%R by (simpl; ring).
    apply round_exact; [lia | exact Hk | left; reflexivity].
  - set (j := Z.log2 (Z.abs k)).
    assert (Hpos : (0 < Z.abs k)%Z) by lia.
    pose proof (Z.log2_spec (Z.abs k) Hpos) as [Hlo Hhi]. fold j in Hlo, Hhi.
    pose proof (Z.log2_nonneg (Z.abs k)) as Hj0. fold j in Hj0.
    assert (Hj : (j <= 23)%Z).
    { destruct (Z_le_gt_dec j 23) as [H | H]; [exact H |].
      exfalso. pose proof (Z.pow_le_mono_r 2 24 j ltac:(lia) ltac:(lia)). lia. }
    assert (Hsplit : (2 ^ 23 = 2 ^ j * 2 ^ (23 - j))%Z).
    { rewrite <- Z.pow_add_r by lia. f_equal. lia. }
    assert (Hsplit' : (2 ^ 24 = 2 ^ Z.succ j * 2 ^ (23 - j))%Z).
    { rewrite <- Z.pow_add_r by lia. f_equal. lia. }
    assert (Hp : (0 < 2 ^ (23 - j))%Z) by (apply Z.pow_pos_nonneg; lia).
    replace (IZR k) with (IZR (k * 2 ^ (23 - j)) * powerRZ 2 (j - 23))%R.
    + apply round_exact; [lia | |].
      * rewrite Z.abs_mul, (Z.abs_eq (2 ^ (23 - j))) by lia. nia.
      * right. rewrite Z.abs_mul, (Z.abs_eq (2 ^ (23 - j))) by lia. nia.
    + rewrite mult_IZR, <- (powerRZ_2_nonneg (23 - j)) by lia.
      rewrite Rmult_assoc. replace (23 - j)%Z with (- (j - 23))%Z by lia.
      rewrite powerRZ_2_cancel. ring.
Qed.



(** Above [2^24] the odd integers are not values of the format:
    [2^24 + 1] is halfway between two of them, and goes to the even one. *)
Lemma round_ties_to_even :
  Float32.round 16777217 = Float32.Finite 16777216.
Proof.
  unfold Float32.round.
  assert (Hexp : Float32.ulp_exponent 254 (-149) 16777217 = 1%Z).
  { apply ulp_exponent_spec; [lia | |].
    - rewrite Rabs_pos_eq by lra. simpl. lra.
    - right. rewrite Rabs_pos_eq by lra. simpl. lra. }
  rewrite Hexp.
  assert (Hnear : Float32.nearest_even (16777217 * powerRZ 2 (Z.opp 1)) = 8388608%Z).
  { unfold Float32.nearest_even.
    assert (Hfloor : Zfloor (16777217 * powerRZ 2 (Z.opp 1)) = 8388608%Z)
      by (apply Zfloor_eq; simpl; lra).
    rewrite Hfloor.
    destruct (Rlt_dec (16777217 * powerRZ 2 (Z.opp 1) - 8388608) (1 / 2)) as [H |];
      [exfalso; simpl in H; lra |].
    destruct (Rlt_dec (1 / 2) (16777217 * powerRZ 2 (Z.opp 1) - 8388608)) as [H |];
      [exfalso; simpl in H; lra | reflexivity]. }
  rewrite Hnear.
  replace (8388608 * powerRZ 2 1)%R with 16777216%R by (simpl; lra).
  destruct (Rlt_dec Float32.max_finite (Rabs 16777216)) as [Hover |];
    [| reflexivity].
  exfalso. rewrite Rabs_pos_eq in Hover by lra.
  unfold Float32.max_finite in Hover.
  rewrite (powerRZ_2_nonneg 104), <- mult_IZR in Hover by lia.
  apply lt_IZR in Hover. vm_compute in Hover. discriminate.
Qed.

(** [2^128] and [- 2^128] are beyond the largest finite value. *)
Lemma round_overflows :
  forall N : Z, Z.abs N = (2 ^ 23)%Z ->
    Float32.round (IZR N * powerRZ 2 105) = Float32.Infinity (N <? 0)%Z.
Proof.
  intros N HN. unfold Float32.round.
  pose proof (powerRZ_2_pos 105) as Hpos.
  assert (Habs : Rabs (IZR N * powerRZ 2 105) = powerRZ 2 128).
  { rewrite Rabs_mult, (Rabs_pos_eq (powerRZ 2 105)) by lra.
    rewrite <- abs_IZR, HN, <- (powerRZ_2_nonneg 23), <- powerRZ_2_add by lia.
    reflexivity. }
  assert (Hexp : Float32.ulp_exponent 254 (-149) (IZR N * powerRZ 2 105) = 105%Z).
  { apply ulp_exponent_spec; [lia | |]; rewrite Habs.
    - pose proof (powerRZ_2_pos 128).
      replace (105 + 24)%Z with (128 + 1)%Z by lia.
      rewrite powerRZ_2_add. simpl (powerRZ 2 1). lra.
    - right. apply powerRZ_2_le. lia. }
  rewrite Hexp.
  replace (IZR N * powerRZ 2 105 * powerRZ 2 (Z.opp 105))%R with (IZR N).
  2:{ rewrite Rmult_assoc, (Rmult_comm (powerRZ 2 105)), powerRZ_2_cancel. ring. }
  rewrite nearest_even_IZR, Habs.
  destruct (Rlt_dec Float32.max_finite (powerRZ 2 128)) as [_ | Hfin].
  - f_equal.
    destruct (Rlt_dec (IZR N * powerRZ 2 105) 0) as [Hneg | Hnonneg];
      symmetry; [apply Z.ltb_lt | apply Z.ltb_ge].
    + apply lt_IZR. nra.
    + apply le_IZR. nra.
  - exfalso. apply Hfin. unfold Float32.max_finite.
    rewrite (powerRZ_2_nonneg 104), (powerRZ_2_nonneg 128), <- mult_IZR by lia.
    apply IZR_lt. vm_compute. reflexivity.
Qed.


(** ** The sigmoid in float32 *)










(** ** [Pointer.call] in float32 *)

Lemma matvec_single :
  forall (x col : list Float32.t) (a : Float32.t),
    List.length x = List.length col ->
    Float32.matvec [a] x (List.map (fun k => [k]) col)
    = [fold_left Float32.add (zip_with Float32.mul x col) a].
Proof.
  intros x. induction x as [| xi x IH]; intros [| k col] a Hlen;
    try discriminate; [reflexivity |].
  cbn [List.map Float32.matvec zip_with fold_left].
  apply IH. simpl in Hlen. lia.
Qed.

Lemma rounded_column :
  forall kernel : list (list R),
    Forall (fun row => List.length row = 1%nat) kernel ->
    (tmap Float32.round 2 kernel : list (list Float32.t))
    = List.map (fun k => [k])
               (List.map (fun row => Float32.round (nth 0 row 0%R)) kernel).
Proof.
  intros kernel Hrows. induction Hrows as [| row kernel Hrow _ IH];
    [reflexivity |].
  destruct row as [| k [| k' row]]; try discriminate.
  change (tmap Float32.round 2 ([k] :: kernel))
    with ([Float32.round k] :: tmap Float32.round 2 kernel).
  rewrite IH. reflexivity.
Qed.

(** A [Dense(1)] layer computes one float32 projection per input vector. *)
Lemma dense32_to_scalar :
  forall (inputs b : nat) (layer : Keras.Dense) (x : tensor R 2),
    Keras.dense_shape inputs 1 layer = true ->
    shaped 2 [b; inputs] x ->
    Float32.dense layer (tmap Float32.round 2 x)
    = Ok (List.map (fun a => [a]) (List.map (projection32 layer) x)).
Proof.
  intros inputs b layer x Hfit [_ Hx].
  destruct (dense_shape_spec _ _ _ Hfit) as [Hk [Hrows Hb]].
  unfold Float32.dense. clear b.
  induction Hx as [| v x Hv _ IH]; [reflexivity |].
  change (tmap Float32.round 2 (v :: x))
    with (List.map Float32.round v :: tmap Float32.round 2 x).
  cbn [mapM List.map]. rewrite IH.
  destruct Hv as [Hv _].
  unfold Float32.dense_vector at 1.
  replace (Nat.eqb (List.length (List.map Float32.round v))
                   (List.length (Keras.kernel layer))) with true
    by (symmetry; apply Nat.eqb_eq; rewrite length_map; congruence).
  cbn [bind]. do 2 f_equal.
  rewrite (rounded_column _ Hrows).
  destruct (Keras.bias layer) as [| b0 [| b1 rest]] eqn:Hbias; try discriminate.
  cbn [List.length repeat].
  rewrite matvec_single by (rewrite !length_map; congruence).
  unfold projection32. rewrite Hbias. reflexivity.
Qed.

Lemma bop32_columns :
  forall (f : Float32.t -> Float32.t -> Float32.t) (xs ys : list Float32.t),
    List.length xs = List.length ys ->
    Float32.bop f 2 (List.map (fun a => [a]) xs) (List.map (fun a => [a]) ys)
    = Ok (List.map (fun a => [a]) (zip_with f xs ys)).
Proof.
  intros f xs ys Hlen.
  change (Float32.bop f 2 (List.map (fun a => [a]) xs)
                      (List.map (fun a => [a]) ys))
    with (if Nat.eqb (List.length (List.map (fun a : Float32.t => [a]) xs))
                     (List.length (List.map (fun a : Float32.t => [a]) ys))
          then zipM (Float32.bop f 1) (List.map (fun a => [a]) xs)
                    (List.map (fun a => [a]) ys)
          else match List.map (fun a : Float32.t => [a]) xs,
                     List.map (fun a : Float32.t => [a]) ys with
               | [x], _ => mapM (fun y => Float32.bop f 1 x y)
                                (List.map (fun a => [a]) ys)
               | _, [y] => mapM (fun x => Float32.bop f 1 x y)
                                (List.map (fun a => [a]) xs)
               | _, _ => Raise incompatible
               end).
  rewrite !length_map, Hlen, Nat.eqb_refl.
  revert ys Hlen. induction xs as [| x xs IH]; intros [| y ys] Hlen;
    try discriminate; [reflexivity |].
  cbn [List.map zipM zip_with].
  rewrite (IH ys) by (simpl in Hlen; lia). reflexivity.
Qed.

Lemma p_gens32_value :
  forall (self : Pointer.t) (hs cs inps : list (list R)),
    List.length cs = List.length hs ->
    List.length inps = List.length hs ->
    List.map (fun a => [Float32.sigmoid a])
      (zip_with Float32.add
         (zip_with Float32.add
            (List.map (projection32 (Pointer.w_s_reduce self)) hs)
            (List.map (projection32 (Pointer.w_c_reduce self)) cs))
         (List.map (projection32 (Pointer.w_i_reduce self)) inps))
    = p_gens32 self cs hs inps.
Proof.
  intros self hs. induction hs as [| h hs IH]; intros [| c cs] [| i inps] Hc Hi;
    try discriminate; [reflexivity |].
  simpl in Hc, Hi.
  cbn [List.map zip_with p_gens32]. rewrite (IH cs inps) by lia.
  reflexivity.
Qed.

(** On inputs of fitting shapes, [Pointer.call] in float32 returns the
    float32 generation probability of every item of the batch. *)
Lemma pointer_call_float32 :
  forall (self : Pointer.t) (b dc dh di : nat)
         (context_vector dec_hidden dec_inp : tensor R 2),
    shaped 2 [b; dc] context_vector ->
    shaped 2 [b; dh] dec_hidden ->
    shaped 2 [b; di] dec_inp ->
    Keras.dense_shape dh 1 (Pointer.w_s_reduce self) = true ->
    Keras.dense_shape dc 1 (Pointer.w_c_reduce self) = true ->
    Keras.dense_shape di 1 (Pointer.w_i_reduce self) = true ->
    Float32.pointer_call self context_vector dec_hidden dec_inp
    = Ok (p_gens32 self context_vector dec_hidden dec_inp).
Proof.
  intros self b dc dh di cs hs inps Hc Hh Hi Hws Hwc Hwi.
  assert (Hlc : List.length cs = List.length hs)
    by (destruct Hc as [Hc _], Hh as [Hh _]; congruence).
  assert (Hli : List.length inps = List.length hs)
    by (destruct Hi as [Hi _], Hh as [Hh _]; congruence).
  unfold Float32.pointer_call.
  rewrite (dense32_to_scalar dh b _ hs Hws Hh). cbn [bind].
  rewrite (dense32_to_scalar dc b _ cs Hwc Hc). cbn [bind].
  rewrite bop32_columns by (rewrite !length_map; congruence). cbn [bind].
  rewrite (dense32_to_scalar di b _ inps Hwi Hi). cbn [bind].
  rewrite bop32_columns
    by (rewrite zip_with_length; rewrite !length_map; congruence).
  cbn [bind]. f_equal.
  change (tmap Float32.sigmoid 2) with (List.map (List.map Float32.sigmoid)).
  rewrite map_map. cbn [List.map].
  apply p_gens32_value; assumption.
Qed.


(** Finite inputs can give NaN: the projection of the decoder state
    overflows to one infinity, the projection of the context vector to the
    other, and their sum is NaN. *)
Lemma pointer_call_float32_nan :
  Float32.pointer_call overflowing_pointer [[-2]]%R [[2]]%R [[0]]%R
  = Ok [[Float32.NaN]].
Proof.
  assert (H127 : Float32.round (powerRZ 2 127)
                 = Float32.Finite (powerRZ 2 127)).
  { replace (powerRZ 2 127) with (IZR (2 ^ 23) * powerRZ 2 104)%R.
    - apply round_exact; [lia | vm_compute; reflexivity |].
      right. vm_compute. discriminate.
    - rewrite <- (powerRZ_2_nonneg 23), <- powerRZ_2_add by lia. reflexivity. }
  assert (Hscale : forall k : Z,
             (IZR k * powerRZ 2 127 = IZR (k * 2 ^ 22) * powerRZ 2 105)%R).
  { intros k. rewrite mult_IZR, <- (powerRZ_2_nonneg 22) by lia.
    rewrite Rmult_assoc, <- powerRZ_2_add. reflexivity. }
  rewrite (pointer_call_float32 overflowing_pointer 1 1 1 1)
    by (try reflexivity; apply has_shape_shaped; reflexivity).
  cbn [p_gens32]. do 3 f_equal.
  unfold p_gen32, projection32.
  cbn [overflowing_pointer Pointer.w_s_reduce Pointer.w_c_reduce
       Pointer.w_i_reduce Keras.kernel Keras.bias List.map zip_with nth
       fold_left].
  rewrite H127, !round_integer by (vm_compute; reflexivity).
  cbn [Float32.mul]. rewrite !Hscale.
  rewrite !round_overflows by (vm_compute; reflexivity).
  reflexivity.
Qed.




(** * Further properties *)

(** ** The recurrent layers *)

(** X1. An encoder that [__init__] has built gets from
    [initialize_hidden_state] as many states as its recurrent layer takes:
    the two methods branch on the same cell kind and direction. *)
Theorem built_encoder_initial_state_fits_layer :
  forall (vocab_size embedding_dim enc_units batch_sz : nat) (rnn_type : string)
         (bidirectional : bool) (embedding_matrix : option (tensor R 2))
         (self : Encoder.t) (batch_size : option nat),
    Encoder.init vocab_size embedding_dim enc_units batch_sz rnn_type
                 bidirectional embedding_matrix = Ok self ->
    exists h : Encoder.hidden,
      Encoder.initialize_hidden_state self batch_size = Ok h
      /\ Encoder.state_count h = layer_states (Encoder.rnn self).
Proof.
  intros vocab_size embedding_dim enc_units batch_sz rnn_type bidirectional
         embedding_matrix self batch_size.
  unfold Encoder.init, Encoder.initialize_hidden_state.
  destruct (lower rnn_type =? "gru") eqn:Hgru;
    [| destruct (lower rnn_type =? "lstm") eqn:Hlstm ];
    cbn [bind]; intros Hbuilt; inversion Hbuilt; subst self;
    cbn [Encoder.rnn_type Encoder.bidirectional Encoder.rnn Encoder.enc_units
         Encoder.batch_sz];
    rewrite ?Hgru, ?Hlstm;
    destruct bidirectional; eexists; split; reflexivity.
Qed.

Lemma built_encoder_initial_state_fits_layer_witness :
  exists h : Encoder.hidden,
    Encoder.initialize_hidden_state lstm_bidirectional_encoder (Some 3) = Ok h
    /\ Encoder.state_count h
       = layer_states (Encoder.rnn lstm_bidirectional_encoder).
Proof.
  apply (built_encoder_initial_state_fits_layer 20 8 10 5 "lstm" true None
           lstm_bidirectional_encoder (Some 3)).
  reflexivity.
Defined.

(** X2. The state [Encoder.call] returns has the structure of the state
    [initialize_hidden_state] returns for the same encoder (a bare tensor
    for the one-directional GRU, a list of the same length otherwise), so
    it can be passed back as [hidden]. *)
Theorem encoder_call_state_has_initial_structure :
  forall (embedding_call : Keras.Embedding -> tensor Z 2 -> result (tensor R 3))
         (rnn_call : Keras.Recurrent -> tensor R 3 -> Encoder.hidden ->
                     result (tensor R 3 * list (tensor R 2)))
         (self : Encoder.t) (x : tensor Z 2) (hidden : Encoder.hidden)
         (batch_size : option nat) (output : tensor R 3)
         (state initial : Encoder.hidden),
    Forward.encoder_call embedding_call rnn_call self x hidden
    = Ok (output, state) ->
    Encoder.initialize_hidden_state self batch_size = Ok initial ->
    same_structure state initial.
Proof.
  intros embedding_call rnn_call self x hidden batch_size output state initial.
  unfold Forward.encoder_call, Encoder.initialize_hidden_state.
  destruct (embedding_call (Encoder.embedding self) x) as [x' |];
    [| discriminate]. cbn [bind].
  destruct (lower (Encoder.rnn_type self) =? "gru");
    [| destruct (lower (Encoder.rnn_type self) =? "lstm"); [| discriminate]];
    destruct (Encoder.bidirectional self);
    destruct (rnn_call (Encoder.rnn self) x' hidden) as [[out states] |];
    try discriminate; cbn [bind];
    destruct states as [| s1 [| s2 [| s3 [| s4 [| s5 rest]]]]];
    try discriminate;
    intros Hcall Hinit; inversion Hcall; inversion Hinit; subst;
    reflexivity.
Qed.

Lemma encoder_call_state_has_initial_structure_witness :
  exists (output : tensor R 3) (state initial : Encoder.hidden),
    Forward.encoder_call zero_embedding one_state_rnn gru_encoder [[1; 2]]%Z
                         (Encoder.One (zeros 1 10))
    = Ok (output, state)
    /\ Encoder.initialize_hidden_state gru_encoder (Some 1) = Ok initial
    /\ same_structure state initial.
Proof.
  eexists. eexists. eexists.
  split; [reflexivity |]. split; [reflexivity |].
  eapply (encoder_call_state_has_initial_structure zero_embedding one_state_rnn
            gru_encoder [[1; 2]]%Z (Encoder.One (zeros 1 10)) (Some 1));
    reflexivity.
Defined.

(** ** Coverage and the score types *)

(** X3. The previous coverage enters the additive-concat score only: with any
    other score type [attention_score] returns what it returns with no
    previous coverage, an exception included. *)
Theorem coverage_enters_additive_score_only :
  forall (self : Attention.t) (enc_output curr_dec_hidden : tensor R 3)
         (encoder_pad_mask : tensor Z 2) (prev_coverage : option (tensor R 3)),
    (lower (Attention.score_type self) =? "additive-concat") = false ->
    Attention.attention_score self enc_output curr_dec_hidden encoder_pad_mask
                              prev_coverage
    = Attention.attention_score self enc_output curr_dec_hidden
                                encoder_pad_mask None.
Proof.
  intros self enc h mask prev Hkind.
  unfold Attention.attention_score, Attention.raw_score.
  rewrite Hkind. reflexivity.
Qed.

Lemma coverage_enters_additive_score_only_witness :
  Attention.attention_score dot_product_layer two_positions one_state
                            second_is_padding (Some [[[5]; [7]]]%R)
  = Attention.attention_score dot_product_layer two_positions one_state
                              second_is_padding None.
Proof.
  apply (coverage_enters_additive_score_only dot_product_layer).
  reflexivity.
Defined.

Lemma expand_dims_last_injective :
  forall {A : Type} (n : nat) (t t' : tensor A n),
    expand_dims_last n t = expand_dims_last n t' -> t = t'.
Proof.
  intros A n t t' Heq.
  assert (H : squeeze_last n (expand_dims_last n t)
              = squeeze_last n (expand_dims_last n t')) by (rewrite Heq; reflexivity).
  rewrite !squeeze_expand_dims_last in H. inversion H. reflexivity.
Qed.

(** ** Shapes of what [call] returns *)

Lemma weighted_sums_shaped :
  forall (b d : nat) (attention : tensor R 2) (outputs : tensor R 3),
    List.length attention = b -> List.length outputs = b ->
    shaped 2 [b; d] (zip_with (weighted_sum d) attention outputs : tensor R 2).
Proof.
  intros b d attention outputs Ha Ho. split.
  - rewrite zip_with_length; congruence.
  - apply zip_with_Forall with (P := fun _ => True) (Q := fun _ => True);
      try (apply Forall_forall; auto).
    intros w m _ _. split.
    + unfold weighted_sum. rewrite length_map, length_seq. reflexivity.
    + apply Forall_forall. reflexivity.
Qed.

Lemma accumulate_shaped :
  forall (b L : nat) (prev_coverage : option (tensor R 3)) (attention : tensor R 2),
    match prev_coverage with
    | None => True
    | Some prev => shaped 3 [b; L; 1] prev
    end ->
    shaped 2 [b; L] attention ->
    shaped 3 [b; L; 1] (accumulate prev_coverage attention).
Proof.
  intros b L prev attention Hprev Ha. unfold accumulate.
  destruct prev as [prev |].
  - apply tzip_shaped; [exact Hprev |].
    apply expand_dims_last_shaped; exact Ha.
  - apply expand_dims_last_shaped; exact Ha.
Qed.

(** X4. On valid inputs [call] with coverage returns one context vector of
    [d] features per sequence, one weight per sequence and position, and a
    coverage of one value per sequence and position with a last axis of
    extent 1, the shape [attention_score] takes as [prev_coverage]. *)
Theorem call_with_coverage_shapes :
  forall (self : Attention.t) (b L d dh : nat) (dec_hidden : tensor R 2)
         (enc_output : tensor R 3) (encoder_pad_mask : tensor Z 2)
         (prev_coverage : option (tensor R 3)),
    valid_inputs self b L d dh enc_output (expand_dims_1 1 dec_hidden)
                 encoder_pad_mask prev_coverage = true ->
    (0 < L)%nat ->
    exists (context attention : tensor R 2) (coverage : tensor R 3),
      Attention.call self dec_hidden enc_output encoder_pad_mask true
                     prev_coverage
      = Ok (context, Rank 2 attention, Some coverage)
      /\ has_shape 2 [b; d] context = true
      /\ has_shape 2 [b; L] attention = true
      /\ has_shape 3 [b; L; 1] coverage = true.
Proof.
  intros self b L d dh dec_hidden enc mask prev Hvalid HL.
  destruct (valid_inputs_shapes _ _ _ _ _ _ _ _ _ Hvalid)
    as [Henc [_ Hprev]].
  destruct (call_with_coverage self b L d dh dec_hidden enc mask prev Hvalid)
    as [context [attention [Ha [_ [Hctx Hcall]]]]].
  rewrite (context_vector_value b L d attention enc Ha Henc HL) in Hctx.
  inversion Hctx; subst context.
  eexists. exists attention. eexists. split; [exact Hcall |].
  split; [| split]; apply has_shape_shaped.
  - destruct Ha as [Hba _]. destruct Henc as [Hbe _].
    apply weighted_sums_shaped; assumption.
  - exact Ha.
  - apply accumulate_shaped; assumption.
Qed.

Lemma call_with_coverage_shapes_witness :
  exists (context attention : tensor R 2) (coverage : tensor R 3),
    Attention.call dot_product_layer sample_state sample_outputs no_padding
                   true None
    = Ok (context, Rank 2 attention, Some coverage)
    /\ has_shape 2 [1; 2] context = true
    /\ has_shape 2 [1; 2] attention = true
    /\ has_shape 3 [1; 2; 1] coverage = true.
Proof.
  apply (call_with_coverage_shapes dot_product_layer 1 2 2 2 sample_state
           sample_outputs no_padding None); [reflexivity | lia].
Defined.

(** ** The softmax of equal scores *)

Lemma Forall_both :
  forall {A : Type} (P Q : A -> Prop) (xs : list A),
    Forall P xs -> Forall Q xs -> Forall (fun x => P x /\ Q x) xs.
Proof.
  intros A P Q xs HP. induction HP as [| x xs Hx HP IH]; intros HQ;
    [constructor |].
  inversion HQ; subst. constructor; auto.
Qed.

Lemma sum_repeat :
  forall (c : R) (n : nat), sum (repeat c n) = (INR n * c)%R.
Proof.
  intros c n. unfold sum. induction n as [| n IH].
  - simpl. ring.
  - rewrite S_INR. cbn [repeat fold_right]. rewrite IH. ring.
Qed.

Lemma softmax_of_zeros :
  forall L : nat,
    (0 < L)%nat ->
    softmax_over_positions (repeat 0%R L) = repeat (1 / INR L)%R L.
Proof.
  intros L HL. unfold softmax_over_positions.
  rewrite !map_repeat, exp_0, sum_repeat, Rmult_1_r. reflexivity.
Qed.

(** ** The dot-product score *)

Lemma bop_rows :
  forall (f : R -> R -> R) (row v : list R),
    List.length row = List.length v ->
    bop f 1 row v = Ok (zip_with f row v).
Proof.
  intros f row v Hlen.
  apply (bop_same_shape f 1 [List.length v] row v).
  - split; [exact Hlen | apply Forall_forall; reflexivity].
  - split; [reflexivity | apply Forall_forall; reflexivity].
Qed.

Lemma bop_matrix_vector :
  forall (f : R -> R -> R) (m : list (list R)) (v : list R),
    Forall (fun row => List.length row = List.length v) m ->
    bop f 2 m [v] = Ok (List.map (fun row => zip_with f row v) m).
Proof.
  intros f m v Hm.
  destruct m as [| row [| row2 m]].
  - reflexivity.
  - inversion Hm as [| r l Hrow _]; subst.
    change (bop f 2 [row] [v])
      with (y <- bop f 1 row v ;; zs <- Ok [] ;; Ok (y :: zs)).
    rewrite (bop_rows f row v Hrow). reflexivity.
  - change (bop f 2 (row :: row2 :: m) [v])
      with (mapM (fun x => bop f 1 x v) (row :: row2 :: m)).
    apply mapM_pure with (P := fun row => List.length row = List.length v);
      [| exact Hm].
    intros x Hx. apply bop_rows. exact Hx.
Qed.

(** The encoder outputs against one vector per sequence, broadcast over
    the positions. *)
Lemma bop_against_states :
  forall (f : R -> R -> R) (b L d : nat) (enc_output : tensor R 3)
         (states : tensor R 2),
    shaped 3 [b; L; d] enc_output ->
    shaped 2 [b; d] states ->
    bop f 3 enc_output (expand_dims_1 1 states)
    = Ok (zip_with (fun m v => List.map (fun row => zip_with f row v) m)
                   enc_output states).
Proof.
  intros f b L d enc states [Hbe He] [Hbs Hs].
  assert (Hall : Forall2 (fun (m : list (list R)) (v : list R) =>
                            Forall (fun row => List.length row = List.length v) m)
                         enc states).
  { pose proof (Forall2_of_shapes _ _ enc states
                  (eq_trans Hbe (eq_sym Hbs)) He Hs) as H.
    revert H. apply Forall2_impl. intros m v [[_ Hm] [Hv _]].
    revert Hm. apply Forall_impl. intros row [Hrow _]. congruence. }
  assert (Hzip : zipM (bop f 2) enc (List.map (fun v : list R => [v]) states)
                 = Ok (zip_with (fun m v => List.map (fun row => zip_with f row v) m)
                                enc states)).
  { clear Hbe He Hbs Hs.
    induction Hall as [| m v enc states Hm Hall IH]; [reflexivity |].
    cbn [List.map zipM zip_with].
    rewrite (bop_matrix_vector f m v Hm). cbn [bind].
    rewrite IH. reflexivity. }
  rewrite <- Hzip. unfold expand_dims_1.
  change (bop f 3 enc (List.map (fun v : list R => [v]) states))
    with (if Nat.eqb (List.length enc)
                     (List.length (List.map (fun v : list R => [v]) states))
          then zipM (bop f 2) enc (List.map (fun v : list R => [v]) states)
          else match enc, List.map (fun v : list R => [v]) states with
               | [x], _ =>
                   mapM (fun y => bop f 2 x y)
                        (List.map (fun v : list R => [v]) states)
               | _, [y] => mapM (fun x => bop f 2 x y) enc
               | _, _ => Raise incompatible
               end).
  destruct (Nat.eqb (List.length enc)
                    (List.length (List.map (fun v : list R => [v]) states)))
    eqn:Hlen; [reflexivity |].
  apply Nat.eqb_neq in Hlen. exfalso. apply Hlen.
  rewrite length_map. congruence.
Qed.

Lemma dot_scores_have_shape :
  forall (b L d : nat) (enc_output : tensor R 3) (states : tensor R 2),
    shaped 3 [b; L; d] enc_output ->
    shaped 2 [b; d] states ->
    shaped 2 [b; L] (dot_scores enc_output states).
Proof.
  intros b L d enc states [Hbe He] [Hbs Hs]. unfold dot_scores. split.
  - rewrite zip_with_length; congruence.
  - apply zip_with_Forall with (P := shaped 2 [L; d]) (Q := shaped 1 [d]);
      auto.
    intros m v [Hm _] _. split.
    + rewrite length_map. exact Hm.
    + apply Forall_forall. reflexivity.
Qed.

(** The scores of the branch that multiplies the encoder outputs by one
    vector per sequence and sums over the features. *)
Lemma product_scores :
  forall (b L d : nat) (enc_output : tensor R 3) (states : tensor R 2),
    shaped 3 [b; L; d] enc_output ->
    shaped 2 [b; d] states ->
    (p <- bop Rmult 3 enc_output (expand_dims_1 1 states) ;;
     Ok (expand_dims_last 2 (reduce_sum_last 2 p)))
    = Ok (expand_dims_last 2 (dot_scores enc_output states)).
Proof.
  intros b L d enc states Henc Hs.
  rewrite (bop_against_states Rmult b L d enc states Henc Hs). cbn [bind].
  do 2 f_equal.
  change (reduce_sum_last 2
            (zip_with (fun m v => List.map (fun row => zip_with Rmult row v) m)
                      enc states))
    with (List.map (List.map sum)
            (zip_with (fun m v => List.map (fun row => zip_with Rmult row v) m)
                      enc states)).
  rewrite map_zip_with. unfold dot_scores.
  apply zip_with_ext. intros m v. rewrite map_map. reflexivity.
Qed.

Lemma attention_of_scores :
  forall self b L enc_output curr_dec_hidden encoder_pad_mask prev_coverage
         (scores : tensor R 2),
    Attention.raw_score self enc_output curr_dec_hidden prev_coverage
    = Ok (expand_dims_last 2 scores) ->
    shaped 2 [b; L] scores ->
    shaped 2 [b; L] encoder_pad_mask ->
    Attention.attention_score self enc_output curr_dec_hidden encoder_pad_mask
                              prev_coverage
    = Ok (expand_dims_last 2 (masked_softmax scores encoder_pad_mask)).
Proof.
  intros self b L enc h mask prev scores Hraw Hs Hmask.
  destruct (attention_score_of_raw_score self b L enc h mask prev _ Hraw
              (expand_dims_last_shaped b L scores Hs) Hmask)
    as [scores' [Heq [_ Hatt]]].
  assert (Hsame : scores = scores')
    by (apply (expand_dims_last_injective 2); exact Heq).
  subst scores'. exact Hatt.
Qed.

Lemma dot_product_is_not_additive :
  forall s : string,
    (s =? "dot-product") = true -> (s =? "additive-concat") = false.
Proof.
  intros s H. apply String.eqb_eq in H. subst s. reflexivity.
Qed.

Lemma dot_product_attention :
  forall self b L d dec_hidden enc_output encoder_pad_mask prev_coverage,
    (lower (Attention.score_type self) =? "dot-product") = true ->
    shaped 3 [b; L; d] enc_output ->
    shaped 2 [b; d] dec_hidden ->
    shaped 2 [b; L] encoder_pad_mask ->
    Attention.attention_score self enc_output (expand_dims_1 1 dec_hidden)
                              encoder_pad_mask prev_coverage
    = Ok (expand_dims_last 2
            (masked_softmax (dot_scores enc_output dec_hidden)
                            encoder_pad_mask)).
Proof.
  intros self b L d h enc mask prev Hkind Henc Hh Hmask.
  apply attention_of_scores with (b := b) (L := L);
    [| apply dot_scores_have_shape with (d := d); assumption | exact Hmask].
  unfold Attention.raw_score.
  rewrite (dot_product_is_not_additive _ Hkind), Hkind.
  apply product_scores with (b := b) (L := L) (d := d); assumption.
Qed.

(** X9. With the dot-product score, the attention distribution is the
    softmax over the positions of the masked dot products of the encoder
    outputs with the decoder state of the sequence; the previous coverage
    plays no part. *)
Theorem dot_product_attention_value :
  forall (self : Attention.t) (b L d : nat) (dec_hidden : tensor R 2)
         (enc_output : tensor R 3) (encoder_pad_mask : tensor Z 2)
         (prev_coverage : option (tensor R 3)),
    (lower (Attention.score_type self) =? "dot-product") = true ->
    has_shape 3 [b; L; d] enc_output = true ->
    has_shape 2 [b; d] dec_hidden = true ->
    has_shape 2 [b; L] encoder_pad_mask = true ->
    Attention.attention_score self enc_output (expand_dims_1 1 dec_hidden)
                              encoder_pad_mask prev_coverage
    = Ok (expand_dims_last 2
            (masked_softmax (dot_scores enc_output dec_hidden)
                            encoder_pad_mask)).
Proof.
  intros self b L d h enc mask prev Hkind Henc Hh Hmask.
  apply has_shape_shaped in Henc, Hh, Hmask.
  apply dot_product_attention with (b := b) (L := L) (d := d); assumption.
Qed.

Lemma dot_product_attention_value_witness :
  Attention.attention_score dot_product_layer sample_outputs
                            (expand_dims_1 1 sample_state) no_padding None
  = Ok (expand_dims_last 2
          (masked_softmax (dot_scores sample_outputs sample_state) no_padding)).
Proof.
  apply (dot_product_attention_value dot_product_layer 1 2 2); reflexivity.
Defined.

(** ** A zero decoder state *)

Lemma dot_zero_state :
  forall (row v : list R), Forall (fun y => y = 0%R) v -> dot row v = 0%R.
Proof.
  intros row v Hv. revert row.
  induction Hv as [| y v Hy Hv IH]; intros [| x row]; try reflexivity.
  subst y. unfold dot, sum in *. cbn [zip_with fold_right].
  rewrite (IH row). ring.
Qed.

Lemma masked_zero_scores :
  forall (row : list R) (m : list Z),
    List.length row = List.length m ->
    Forall (fun x => x = 0%R) row ->
    zip_with (fun x k => (x * IZR k)%R) row m = repeat 0%R (List.length m).
Proof.
  intros row m Hlen Hrow. revert m Hlen.
  induction Hrow as [| x row Hx Hrow IH]; intros [| k m] Hlen;
    try discriminate; [reflexivity |].
  subst x. cbn [zip_with List.length repeat].
  rewrite (IH m) by (simpl in Hlen; lia). f_equal. ring.
Qed.

Lemma masked_softmax_zero_scores :
  forall (b L : nat) (scores : tensor R 2) (mask : tensor Z 2),
    (0 < L)%nat ->
    shaped 2 [b; L] scores ->
    shaped 2 [b; L] mask ->
    Forall (Forall (fun x => x = 0%R)) scores ->
    masked_softmax scores mask = uniform b L.
Proof.
  intros b L scores mask HL [Hbs Hs] [Hbm Hm] Hzero.
  unfold masked_softmax, uniform. subst b.
  pose proof (Forall_both _ _ _ Hs Hzero) as Hs'.
  pose proof (Forall2_of_shapes _ _ scores mask (eq_sym Hbm) Hs' Hm) as Hall.
  clear Hbm Hs Hm Hzero Hs'.
  induction Hall as [| row m scores mask [[[Hrow _] Hz] [Hmk _]] Hall IH];
    [reflexivity |].
  cbn [zip_with List.length repeat]. rewrite IH. f_equal.
  rewrite masked_zero_scores by (assumption || congruence).
  rewrite Hmk. apply softmax_of_zeros. exact HL.
Qed.

Lemma dot_scores_zero_states :
  forall (enc_output : tensor R 3) (states : tensor R 2),
    Forall (Forall (fun y => y = 0%R)) states ->
    Forall (Forall (fun x => x = 0%R)) (dot_scores enc_output states).
Proof.
  intros enc states Hs. unfold dot_scores.
  apply zip_with_Forall
    with (P := fun _ : list (list R) => True) (Q := Forall (fun y => y = 0%R));
    [| apply Forall_forall; auto | exact Hs].
  intros m v _ Hv. apply Forall_map, Forall_forall. intros row _.
  apply dot_zero_state. exact Hv.
Qed.

Lemma l2_normalize_states :
  forall states : tensor R 2,
    l2_normalize 2 (expand_dims_1 1 states)
    = expand_dims_1 1 (l2_normalize 1 states).
Proof.
  intros states. unfold expand_dims_1.
  change (l2_normalize 2 (List.map (fun v : list R => [v]) states))
    with (List.map (List.map (l2_normalize 0))
                   (List.map (fun v : list R => [v]) states)).
  change (l2_normalize 1 states) with (List.map (l2_normalize 0) states).
  rewrite !map_map. reflexivity.
Qed.

Lemma l2_normalize_1_shaped :
  forall (b d : nat) (states : tensor R 2),
    shaped 2 [b; d] states -> shaped 2 [b; d] (l2_normalize 1 states).
Proof.
  intros b d states [Hb Hs]. split.
  - simpl. rewrite length_map. exact Hb.
  - simpl. apply Forall_map. revert Hs. apply Forall_impl.
    intros v [Hv _]. split.
    + rewrite length_map. exact Hv.
    + apply Forall_forall. reflexivity.
Qed.

Lemma cosine_is_no_other :
  forall s : string,
    (s =? "cosine-similarity") = true ->
    (s =? "additive-concat") = false
    /\ (s =? "dot-product") = false
    /\ (s =? "general") = false.
Proof.
  intros s H. apply String.eqb_eq in H. subst s. repeat split; reflexivity.
Qed.

Lemma cosine_attention :
  forall self b L d dec_hidden enc_output encoder_pad_mask prev_coverage,
    (lower (Attention.score_type self) =? "cosine-similarity") = true ->
    shaped 3 [b; L; d] enc_output ->
    shaped 2 [b; d] dec_hidden ->
    shaped 2 [b; L] encoder_pad_mask ->
    Attention.attention_score self enc_output (expand_dims_1 1 dec_hidden)
                              encoder_pad_mask prev_coverage
    = Ok (expand_dims_last 2
            (masked_softmax
               (dot_scores (l2_normalize 2 enc_output)
                           (l2_normalize 1 dec_hidden))
               encoder_pad_mask)).
Proof.
  intros self b L d h enc mask prev Hkind Henc Hh Hmask.
  apply attention_of_scores with (b := b) (L := L);
    [| apply dot_scores_have_shape with (d := d);
       [apply l2_normalize_shaped | apply l2_normalize_1_shaped]; assumption
     | exact Hmask].
  unfold Attention.raw_score.
  destruct (cosine_is_no_other _ Hkind) as [Ha [Hd Hg]].
  rewrite Ha, Hd, Hg, Hkind. cbv zeta.
  rewrite l2_normalize_states.
  apply product_scores with (b := b) (L := L) (d := d);
    [apply l2_normalize_shaped | apply l2_normalize_1_shaped]; assumption.
Qed.

Lemma l2_normalize_zero :
  forall states : tensor R 2,
    Forall (Forall (fun y => y = 0%R)) states ->
    Forall (Forall (fun y => y = 0%R)) (l2_normalize 1 states).
Proof.
  intros states Hs.
  change (l2_normalize 1 states) with (List.map (l2_normalize 0) states).
  apply Forall_map. revert Hs. apply Forall_impl. intros v Hv.
  cbn [l2_normalize]. apply Forall_map. revert Hv. apply Forall_impl.
  intros y Hy. subst y. ring.
Qed.

(** X11. With the dot-product or the cosine-similarity score, a decoder state
    of zeros gets the uniform attention distribution, 1/L at every
    position, whatever the encoder outputs and the padding mask. *)
Theorem zero_state_attends_uniformly :
  forall (self : Attention.t) (b L d : nat) (enc_output : tensor R 3)
         (encoder_pad_mask : tensor Z 2) (prev_coverage : option (tensor R 3)),
    (lower (Attention.score_type self) =? "dot-product")
    || (lower (Attention.score_type self) =? "cosine-similarity") = true ->
    has_shape 3 [b; L; d] enc_output = true ->
    has_shape 2 [b; L] encoder_pad_mask = true ->
    (0 < L)%nat ->
    Attention.attention_score self enc_output (expand_dims_1 1 (zeros b d))
                              encoder_pad_mask prev_coverage
    = Ok (expand_dims_last 2 (uniform b L)).
Proof.
  intros self b L d enc mask prev Hkind Henc Hmask HL.
  apply has_shape_shaped in Henc, Hmask.
  assert (Hz : shaped 2 [b; d] (zeros b d))
    by (apply has_shape_shaped, zeros_has_shape).
  pose proof (zeros_all_zero b d) as Hzero. unfold all_zero in Hzero.
  apply orb_true_iff in Hkind as [Hkind | Hkind].
  - rewrite (dot_product_attention self b L d (zeros b d) enc mask prev)
      by assumption.
    do 2 f_equal.
    apply masked_softmax_zero_scores; try assumption.
    + apply dot_scores_have_shape with (d := d); assumption.
    + apply dot_scores_zero_states. exact Hzero.
  - rewrite (cosine_attention self b L d (zeros b d) enc mask prev)
      by assumption.
    do 2 f_equal.
    apply masked_softmax_zero_scores; try assumption.
    + apply dot_scores_have_shape with (d := d);
        [apply l2_normalize_shaped | apply l2_normalize_1_shaped]; assumption.
    + apply dot_scores_zero_states, l2_normalize_zero. exact Hzero.
Qed.

Lemma zero_state_attends_uniformly_witness :
  Attention.attention_score dot_product_layer sample_outputs
                            (expand_dims_1 1 (zeros 1 2)) [[1; 0]]%Z None
  = Ok (expand_dims_last 2 (uniform 1 2)).
Proof.
  apply (zero_state_attends_uniformly dot_product_layer 1 2 2);
    [reflexivity | reflexivity | reflexivity | lia].
Defined.

(** ** Feature extents that do not match *)

Lemma bop_rows_incompatible :
  forall (f : R -> R -> R) (row v : list R),
    List.length row <> List.length v ->
    List.length row <> 1%nat ->
    List.length v <> 1%nat ->
    bop f 1 row v = Raise incompatible.
Proof.
  intros f row v Hne Hrow Hv.
  change (bop f 1 row v)
    with (if Nat.eqb (List.length row) (List.length v)
          then zipM (bop f 0) row v
          else match row, v with
               | [x], _ => mapM (fun y => bop f 0 x y) v
               | _, [y] => mapM (fun x => bop f 0 x y) row
               | _, _ => Raise incompatible
               end).
  destruct (Nat.eqb_spec (List.length row) (List.length v)) as [Heq | _];
    [contradiction |].
  destruct row as [| x [| x' row]]; destruct v as [| y [| y' v]];
    simpl in *; try reflexivity; contradiction.
Qed.

(** A binary operator that raises on the first items of two tensors raises
    on the tensors. *)
Lemma bop_head_incompatible :
  forall (f : R -> R -> R) (n : nat) (x y : tensor R n)
         (xs ys : list (tensor R n)),
    bop f n x y = Raise incompatible ->
    bop f (S n) (x :: xs) (y :: ys) = Raise incompatible.
Proof.
  intros f n x y xs ys H. cbn [bop].
  match goal with |- context [if ?c then _ else _] => destruct c end.
  - cbn [zipM]. rewrite H. reflexivity.
  - destruct xs as [| x2 xs]; [| destruct ys as [| y2 ys]];
      cbn [mapM]; rewrite ?H; reflexivity.
Qed.

(** X12. With the dot-product score, encoder outputs of [d] features and a
    decoder state of [dh] features, where [d] and [dh] differ and neither is
    1, make [call] raise the shape error of the multiplication, with or
    without coverage; the extents are not checked before. *)
Theorem dot_product_feature_mismatch_raises :
  forall (self : Attention.t) (b L d dh : nat) (dec_hidden : tensor R 2)
         (enc_output : tensor R 3) (encoder_pad_mask : tensor Z 2)
         (use_coverage : bool) (prev_coverage : option (tensor R 3)),
    (lower (Attention.score_type self) =? "dot-product") = true ->
    has_shape 3 [b; L; d] enc_output = true ->
    has_shape 2 [b; dh] dec_hidden = true ->
    (0 < b)%nat -> (0 < L)%nat ->
    d <> dh -> d <> 1%nat -> dh <> 1%nat ->
    Attention.call self dec_hidden enc_output encoder_pad_mask use_coverage
                   prev_coverage
    = Raise incompatible.
Proof.
  intros self b L d dh h enc mask use_coverage prev Hkind Henc Hh Hb HL
         Hne Hd Hdh.
  apply has_shape_shaped in Henc, Hh.
  destruct Henc as [Hbe Henc]. destruct Hh as [Hbh Hh].
  destruct enc as [| m enc]; [simpl in Hbe; lia |].
  destruct h as [| v h]; [simpl in Hbh; lia |].
  inversion Henc as [| m0 enc0 [HLm Hm] _]; subst m0 enc0.
  inversion Hh as [| v0 h0 [Hv _] _]; subst v0 h0.
  destruct m as [| row m]; [simpl in HLm; lia |].
  inversion Hm as [| r0 m0 [Hrow _] _]; subst r0 m0.
  unfold Attention.call, Attention.attention_score, Attention.raw_score.
  cbv zeta.
  rewrite (dot_product_is_not_additive _ Hkind), Hkind.
  match goal with
  | |- context [bop Rmult 3 ?x ?y] =>
      assert (Hbop : bop Rmult 3 x y = Raise incompatible)
  end.
  { unfold expand_dims_1. cbn [List.map].
    apply (bop_head_incompatible Rmult 2).
    apply (bop_head_incompatible Rmult 1).
    apply bop_rows_incompatible; congruence. }
  rewrite Hbop.
  destruct use_coverage; reflexivity.
Qed.

Lemma dot_product_feature_mismatch_raises_witness :
  Attention.call dot_product_layer [[1; 0; 0]]%R sample_outputs no_padding
                 true None
  = Raise incompatible.
Proof.
  apply (dot_product_feature_mismatch_raises dot_product_layer 1 2 2 3);
    try reflexivity; lia.
Defined.

(** X13. With the dot-product score, a decoder state of a single feature is
    accepted against encoder outputs of any number of features: the
    multiplication broadcasts it, and [attention_score] returns a
    distribution of the usual shape. *)
Theorem dot_product_single_feature_broadcasts :
  forall (self : Attention.t) (b L d : nat) (dec_hidden : tensor R 2)
         (enc_output : tensor R 3) (encoder_pad_mask : tensor Z 2)
         (prev_coverage : option (tensor R 3)),
    (lower (Attention.score_type self) =? "dot-product") = true ->
    has_shape 3 [b; L; d] enc_output = true ->
    has_shape 2 [b; 1] dec_hidden = true ->
    has_shape 2 [b; L] encoder_pad_mask = true ->
    exists attention : tensor R 3,
      Attention.attention_score self enc_output (expand_dims_1 1 dec_hidden)
                                encoder_pad_mask prev_coverage
      = Ok attention
      /\ has_shape 3 [b; L; 1] attention = true.
Proof.
  intros self b L d h enc mask prev Hkind Henc Hh Hmask.
  apply has_shape_shaped in Henc, Hh, Hmask.
  assert (Hbc : broadcast [b; L; d] [b; 1; 1] [b; L; d])
    by apply broadcast_same, broadcast_right, broadcast_right, broadcast_nil.
  destruct (bop_broadcast Rmult 3 _ _ _ enc (expand_dims_1 1 h) Hbc Henc
              (expand_dims_1_shaped b 1 h Hh)) as [p [Hp Hsp]].
  assert (Hraw : Attention.raw_score self enc (expand_dims_1 1 h) prev
                 = Ok (expand_dims_last 2 (reduce_sum_last 2 p))).
  { unfold Attention.raw_score.
    rewrite (dot_product_is_not_additive _ Hkind), Hkind, Hp. reflexivity. }
  assert (Hs : shaped 2 [b; L] (reduce_sum_last 2 p))
    by (apply reduce_sum_last_shaped with (d := d); exact Hsp).
  rewrite (attention_of_scores self b L enc _ mask prev _ Hraw Hs Hmask).
  eexists. split; [reflexivity |].
  apply has_shape_shaped, expand_dims_last_shaped, masked_softmax_shaped;
    assumption.
Qed.

Lemma dot_product_single_feature_broadcasts_witness :
  exists attention : tensor R 3,
    Attention.attention_score dot_product_layer sample_outputs
                              (expand_dims_1 1 [[2]]%R) no_padding None
    = Ok attention
    /\ has_shape 3 [1; 2; 1] attention = true.
Proof.
  apply (dot_product_single_feature_broadcasts dot_product_layer 1 2 2);
    reflexivity.
Defined.

(** ** The cosine-similarity score *)

Lemma dot_self_nonnegative : forall x : list R, (0 <= dot x x)%R.
Proof.
  intros x. unfold dot, sum. induction x as [| a x IH]; simpl; [lra |].
  pose proof (Rle_0_sqr a) as Ha. unfold Rsqr in Ha. lra.
Qed.

Lemma cauchy_schwarz :
  forall x y : list R, (dot x y * dot x y <= dot x x * dot y y)%R.
Proof.
  intros x. induction x as [| a x IH]; intros y.
  - unfold dot, sum. simpl. lra.
  - destruct y as [| c y].
    + pose proof (dot_self_nonnegative (a :: x)) as H.
      unfold dot, sum in *. simpl in *. nra.
    + specialize (IH y).
      pose proof (dot_self_nonnegative x) as HA.
      pose proof (dot_self_nonnegative y) as HB.
      unfold dot, sum in *. cbn [zip_with fold_right] in *.
      set (S := fold_right Rplus 0%R (zip_with Rmult x y)) in *.
      set (A := fold_right Rplus 0%R (zip_with Rmult x x)) in *.
      set (B := fold_right Rplus 0%R (zip_with Rmult y y)) in *.
      assert (Hmix : (2 * (a * c) * S <= a * a * B + c * c * A)%R).
      { destruct (Rle_lt_or_eq_dec 0 B HB) as [HBpos | HB0].
        - pose proof (Rle_0_sqr (a * B - c * S)) as Hsq. unfold Rsqr in Hsq.
          assert (H : (0 <= B * (a * a * B + c * c * A - 2 * (a * c) * S))%R)
            by nra.
          nra.
        - assert (HS : S = 0%R) by nra.
          rewrite HS, <- HB0. nra. }
      nra.
Qed.

Lemma dot_scaled :
  forall (c : R) (v : list R),
    dot (List.map (fun x => x * c)%R v) (List.map (fun x => x * c)%R v)
    = (c * c * dot v v)%R.
Proof.
  intros c v. unfold dot, sum. induction v as [| a v IH]; simpl; [ring |].
  rewrite IH. ring.
Qed.

Lemma dot_self_square_sum :
  forall v : list R, dot v v = sum (List.map (fun x => x * x)%R v).
Proof.
  intros v. unfold dot, sum. induction v as [| a v IH]; simpl; [reflexivity |].
  rewrite IH. reflexivity.
Qed.

Lemma epsilon_positive : (0 < epsilon)%R.
Proof. unfold epsilon. apply Rinv_0_lt_compat, pow_lt. lra. Qed.

(** A normalized vector has length at most 1. *)
Lemma l2_normalize_norm :
  forall v : list R,
    (0 <= dot (l2_normalize 0 v) (l2_normalize 0 v) <= 1)%R.
Proof.
  intros v. split; [apply dot_self_nonnegative |].
  cbn [l2_normalize]. cbv zeta. rewrite dot_scaled, <- dot_self_square_sum.
  set (S := dot v v).
  assert (HS : (0 <= S)%R) by apply dot_self_nonnegative.
  assert (HM : (0 < Rmax S epsilon)%R).
  { apply Rlt_le_trans with (r2 := epsilon);
      [apply epsilon_positive | apply Rmax_r]. }
  assert (Hle : (S <= Rmax S epsilon)%R) by apply Rmax_l.
  assert (Hinv : (/ sqrt (Rmax S epsilon) * / sqrt (Rmax S epsilon)
                  = / Rmax S epsilon)%R).
  { rewrite <- Rinv_mult, sqrt_sqrt by lra. reflexivity. }
  rewrite Hinv.
  apply Rmult_le_reg_r with (r := Rmax S epsilon); [exact HM |].
  rewrite Rmult_assoc, (Rmult_comm S), <- Rmult_assoc, Rinv_l by lra.
  lra.
Qed.

(** The cosine of two vectors is between -1 and 1. *)
Lemma cosine_bounded :
  forall row v : list R,
    (-1 <= dot (l2_normalize 0 row) (l2_normalize 0 v) <= 1)%R.
Proof.
  intros row v.
  pose proof (cauchy_schwarz (l2_normalize 0 row) (l2_normalize 0 v)) as Hcs.
  pose proof (l2_normalize_norm row) as [Hr0 Hr1].
  pose proof (l2_normalize_norm v) as [Hv0 Hv1].
  set (c := dot (l2_normalize 0 row) (l2_normalize 0 v)) in *.
  assert (Hsq : (c * c <= 1)%R) by nra.
  split; nra.
Qed.

Lemma exp_monotone : forall x y : R, (x <= y)%R -> (exp x <= exp y)%R.
Proof.
  intros x y [Hlt | Heq].
  - left. apply exp_increasing. exact Hlt.
  - subst y. right. reflexivity.
Qed.

(** Scores between -1 and 1 give weights within a factor [exp 2] of one
    another. *)
Lemma softmax_ratio :
  forall (zs : list R) (w w' : R),
    Forall (fun z => (-1 <= z <= 1)%R) zs ->
    In w (softmax_over_positions zs) ->
    In w' (softmax_over_positions zs) ->
    (w <= exp 2 * w')%R.
Proof.
  intros zs w w' Hzs Hw Hw'. unfold softmax_over_positions in Hw, Hw'.
  apply in_map_iff in Hw as [z [Hw Hz]].
  apply in_map_iff in Hw' as [z' [Hw' Hz']].
  subst w w'.
  rewrite Forall_forall in Hzs.
  pose proof (Hzs z Hz) as [_ Hz1]. pose proof (Hzs z' Hz') as [Hz'1 _].
  assert (HS : (0 < sum (List.map exp zs))%R).
  { destruct zs as [| z0 zs]; [contradiction | apply sum_exp_positive]. }
  assert (Hexp : (exp z <= exp 2 * exp z')%R).
  { apply Rle_trans with (r2 := exp 1); [apply exp_monotone; exact Hz1 |].
    replace 1%R with (2 + -1)%R at 1 by ring. rewrite exp_plus.
    apply Rmult_le_compat_l; [left; apply exp_pos |].
    apply exp_monotone. exact Hz'1. }
  unfold Rdiv. rewrite <- Rmult_assoc.
  apply Rmult_le_compat_r; [left; apply Rinv_0_lt_compat; exact HS |].
  exact Hexp.
Qed.

Lemma masked_cosines_bounded :
  forall (v : list R) (m : list (list R)) (mask : list Z),
    Forall (fun k => k = 0%Z \/ k = 1%Z) mask ->
    Forall (fun z => (-1 <= z <= 1)%R)
           (zip_with (fun x k => (x * IZR k)%R)
                     (List.map (fun row => dot row (l2_normalize 0 v))
                               (List.map (l2_normalize 0) m))
                     mask).
Proof.
  intros v m mask Hmask.
  apply zip_with_Forall
    with (P := fun x => (-1 <= x <= 1)%R) (Q := fun k => k = 0%Z \/ k = 1%Z);
    [| | exact Hmask].
  - intros x k Hx [Hk | Hk]; subst k; simpl; lra.
  - rewrite map_map. apply Forall_map, Forall_forall. intros row _.
    apply cosine_bounded.
Qed.

(** X14. With the cosine-similarity score and a 0/1 mask, no attention
    weight of a sequence exceeds another weight of the sequence by more
    than the factor [exp 2]: every score is a cosine, between -1 and 1. *)
Theorem cosine_attention_is_nearly_uniform :
  forall (self : Attention.t) (b L d : nat) (dec_hidden : tensor R 2)
         (enc_output : tensor R 3) (encoder_pad_mask : tensor Z 2)
         (prev_coverage : option (tensor R 3)),
    (lower (Attention.score_type self) =? "cosine-similarity") = true ->
    has_shape 3 [b; L; d] enc_output = true ->
    has_shape 2 [b; d] dec_hidden = true ->
    has_shape 2 [b; L] encoder_pad_mask = true ->
    Forall (Forall (fun k => k = 0%Z \/ k = 1%Z)) encoder_pad_mask ->
    exists attention : tensor R 2,
      Attention.attention_score self enc_output (expand_dims_1 1 dec_hidden)
                                encoder_pad_mask prev_coverage
      = Ok (expand_dims_last 2 attention)
      /\ Forall (fun weights =>
                   forall w w' : R,
                     In w weights -> In w' weights -> (w <= exp 2 * w')%R)
                attention.
Proof.
  intros self b L d h enc mask prev Hkind Henc Hh Hmask H01.
  apply has_shape_shaped in Henc, Hh, Hmask.
  eexists. split;
    [apply cosine_attention with (b := b) (L := L) (d := d); assumption |].
  unfold masked_softmax, dot_scores.
  change (l2_normalize 2 enc) with (List.map (List.map (l2_normalize 0)) enc).
  change (l2_normalize 1 h) with (List.map (l2_normalize 0) h).
  clear Henc Hh Hmask Hkind.
  revert h mask H01.
  induction enc as [| m enc IH]; intros [| v h] [| mrow mask] H01;
    try (cbn [List.map zip_with]; constructor).
  - intros w w'. inversion H01 as [| k l Hrow _]; subst.
    apply softmax_ratio. apply masked_cosines_bounded. exact Hrow.
  - apply IH. inversion H01; assumption.
Qed.

Lemma cosine_attention_is_nearly_uniform_witness :
  exists attention : tensor R 2,
    Attention.attention_score
      (Attention.mk 10 "cosine-similarity" None
                    no_weights no_weights no_weights no_weights)
      sample_outputs (expand_dims_1 1 sample_state) [[1; 0]]%Z None
    = Ok (expand_dims_last 2 attention)
    /\ Forall (fun weights =>
                 forall w w' : R,
                   In w weights -> In w' weights -> (w <= exp 2 * w')%R)
              attention.
Proof.
  apply (cosine_attention_is_nearly_uniform
           (Attention.mk 10 "cosine-similarity" None
                         no_weights no_weights no_weights no_weights)
           1 2 2); try reflexivity.
  apply Forall_cons; [| apply Forall_nil].
  apply Forall_cons; [right; reflexivity |].
  apply Forall_cons; [left; reflexivity | apply Forall_nil].
Defined.

(** ** The forward passes *)

(** X15. An encoder that [__init__] has built, run on a recurrent layer that
    returns as many states as the layer has, returns from [call]: the
    unpacking fits the layer, and the state returned holds exactly the
    states of the layer. *)
Theorem built_encoder_call_returns :
  forall (embedding_call : Keras.Embedding -> tensor Z 2 -> result (tensor R 3))
         (rnn_call : Keras.Recurrent -> tensor R 3 -> Encoder.hidden ->
                     result (tensor R 3 * list (tensor R 2)))
         (vocab_size embedding_dim enc_units batch_sz : nat) (rnn_type : string)
         (bidirectional : bool) (embedding_matrix : option (tensor R 2))
         (self : Encoder.t) (x : tensor Z 2) (hidden : Encoder.hidden)
         (embedded output : tensor R 3) (states : list (tensor R 2)),
    Encoder.init vocab_size embedding_dim enc_units batch_sz rnn_type
                 bidirectional embedding_matrix = Ok self ->
    embedding_call (Encoder.embedding self) x = Ok embedded ->
    rnn_call (Encoder.rnn self) embedded hidden = Ok (output, states) ->
    List.length states = layer_states (Encoder.rnn self) ->
    exists state : Encoder.hidden,
      Forward.encoder_call embedding_call rnn_call self x hidden
      = Ok (output, state)
      /\ Encoder.states_of state = states.
Proof.
  intros embedding_call rnn_call vocab_size embedding_dim enc_units batch_sz
         rnn_type bidirectional embedding_matrix self x hidden embedded output
         states Hbuilt Hemb Hrnn Hcount.
  unfold Forward.encoder_call. rewrite Hemb. cbn [bind].
  unfold Encoder.init in Hbuilt.
  destruct (lower rnn_type =? "gru") eqn:Hgru;
    [| destruct (lower rnn_type =? "lstm") eqn:Hlstm ];
    cbn [bind] in Hbuilt; inversion Hbuilt; subst self;
    cbn [Encoder.rnn_type Encoder.bidirectional Encoder.rnn] in *;
    rewrite ?Hgru, ?Hlstm;
    destruct bidirectional; rewrite Hrnn; cbn [bind];
    cbn [layer_states Nat.mul Nat.add] in Hcount;
    destruct states as [| s1 [| s2 [| s3 [| s4 [| s5 rest]]]]];
    try discriminate Hcount;
    eexists; split; reflexivity.
Qed.

Lemma built_encoder_call_returns_witness :
  exists state : Encoder.hidden,
    Forward.encoder_call zero_embedding one_state_rnn gru_encoder [[1; 2]]%Z
                         (Encoder.One (zeros 1 10))
    = Ok (List.map (List.map (fun _ : list R => [0%R]))
                   (tmap (fun _ : Z => repeat 0%R 8) 2 [[1; 2]]%Z),
          state)
    /\ Encoder.states_of state
       = [List.map (fun _ : list (list R) => [0%R])
                   (tmap (fun _ : Z => repeat 0%R 8) 2 [[1; 2]]%Z)].
Proof.
  eapply (built_encoder_call_returns zero_embedding one_state_rnn
            20 8 10 5 "gru" false None gru_encoder [[1; 2]]%Z
            (Encoder.One (zeros 1 10))
            (tmap (fun _ : Z => repeat 0%R 8) 2 [[1; 2]]%Z));
    reflexivity.
Defined.

Lemma concat_last_shaped :
  forall (b T d1 d2 : nat) (x y : tensor R 3),
    shaped 3 [b; T; d1] x -> shaped 3 [b; T; d2] y ->
    exists c, Forward.concat_last 2 x y = Ok c
              /\ shaped 3 [b; T; d1 + d2] c.
Proof.
  intros b T d1 d2 x y [Hbx Hx] [Hby Hy].
  assert (Hrow : forall u v : tensor R 1,
             shaped 1 [d1] u -> shaped 1 [d2] v ->
             exists w, Forward.concat_last 0 u v = Ok w
                       /\ shaped 1 [d1 + d2] w).
  { intros u v [Hu _] [Hv _]. exists (List.app u v).
    split; [reflexivity |]. split.
    - rewrite length_app, Hu, Hv. reflexivity.
    - apply Forall_forall. reflexivity. }
  assert (Hmat : forall m n : tensor R 2,
             shaped 2 [T; d1] m -> shaped 2 [T; d2] n ->
             exists w, Forward.concat_last 1 m n = Ok w
                       /\ shaped 2 [T; d1 + d2] w).
  { intros m n [Hlm Hm] [Hln Hn].
    change (Forward.concat_last 1 m n)
      with (if Nat.eqb (List.length m) (List.length n)
            then zipM (Forward.concat_last 0) m n
            else Raise (InvalidArgumentError "Dimensions of inputs should match")).
    match goal with |- context [if ?c then _ else _] => destruct c eqn:Hlen end;
      [| apply Nat.eqb_neq in Hlen; exfalso; apply Hlen;
         exact (eq_trans Hlm (eq_sym Hln))].
    destruct (zipM_ok (shaped 1 [d1]) (shaped 1 [d2]) (shaped 1 [d1 + d2])
                (Forward.concat_last 0) m n Hrow) as [w [Hw [Hl Hs]]];
      [exact (eq_trans Hlm (eq_sym Hln)) | assumption | assumption |].
    exists w. split; [exact Hw |].
    split; [exact (eq_trans Hl Hlm) | exact Hs]. }
  change (Forward.concat_last 2 x y)
    with (if Nat.eqb (List.length x) (List.length y)
          then zipM (Forward.concat_last 1) x y
          else Raise (InvalidArgumentError "Dimensions of inputs should match")).
  match goal with |- context [if ?c then _ else _] => destruct c eqn:Hlen end;
    [| apply Nat.eqb_neq in Hlen; exfalso; apply Hlen;
       exact (eq_trans Hbx (eq_sym Hby))].
  destruct (zipM_ok (shaped 2 [T; d1]) (shaped 2 [T; d2])
              (shaped 2 [T; d1 + d2]) (Forward.concat_last 1) x y Hmat)
    as [w [Hw [Hl Hs]]];
    [exact (eq_trans Hbx (eq_sym Hby)) | assumption | assumption |].
  exists w. split; [exact Hw |].
  split; [exact (eq_trans Hl Hbx) | exact Hs].
Qed.

Lemma reshape_rows_shaped :
  forall (b d : nat) (t : tensor R 3),
    shaped 3 [b; 1; d] t -> shaped 2 [b; d] (Forward.reshape_rows t).
Proof.
  intros b d t [Hb Ht]. subst b. unfold Forward.reshape_rows.
  induction Ht as [| m t [Hm Hrows] Ht IH].
  - split; [reflexivity | constructor].
  - destruct m as [| row [| row2 m]]; try discriminate.
    destruct IH as [Hlen Hall]. cbn [List.concat List.app List.length].
    inversion Hrows; subst.
    split; [exact (f_equal S Hlen) | constructor; assumption].
Qed.

Lemma softmax_rows_shaped :
  forall (b d : nat) (t : tensor R 2),
    shaped 2 [b; d] t -> shaped 2 [b; d] (Forward.softmax_rows t).
Proof.
  intros b d t [Hb Ht]. unfold Forward.softmax_rows. split.
  - rewrite length_map. exact Hb.
  - apply Forall_map. revert Ht. apply Forall_impl. intros row [Hrow _].
    split; [rewrite !length_map; exact Hrow | apply Forall_forall; reflexivity].
Qed.

(** X16. A decoder that [__init__] has built, run on a recurrent layer that
    returns one output per sequence and as many states as the layer has,
    returns from [call]: one row per sequence over the whole vocabulary, and
    the states of the layer, in their order. *)
Theorem built_decoder_call_returns :
  forall (embedding_call : Keras.Embedding -> tensor Z 2 -> result (tensor R 3))
         (rnn_call : Keras.Recurrent -> tensor R 3 -> Encoder.hidden ->
                     result (tensor R 3 * list (tensor R 2)))
         (vocab_size embedding_dim dec_units batch_sz : nat) (rnn_type : string)
         (embedding_matrix : option (tensor R 2))
         (self : Decoder.t) (weights : Forward.decoder_weights)
         (x : tensor Z 2) (hidden : Encoder.hidden)
         (context_vector : tensor R 2) (b dc u : nat)
         (embedded output : tensor R 3) (states : list (tensor R 2)),
    Decoder.init vocab_size embedding_dim dec_units batch_sz rnn_type
                 embedding_matrix = Ok self ->
    embedding_call (Decoder.embedding self) x = Ok embedded ->
    rnn_call (Decoder.rnn self) embedded hidden = Ok (output, states) ->
    List.length states = layer_states (Decoder.rnn self) ->
    has_shape 3 [b; 1; u] output = true ->
    has_shape 2 [b; dc] context_vector = true ->
    Keras.dense_shape (dc + u) (2 * dec_units)
                      (Forward.dense1_weights weights) = true ->
    Keras.dense_shape (2 * dec_units) vocab_size
                      (Forward.dense2_weights weights) = true ->
    exists (probabilities : tensor R 2) (state : Encoder.hidden),
      Forward.decoder_call embedding_call rnn_call self weights x hidden
                           context_vector
      = Ok (probabilities, state)
      /\ Encoder.states_of state = states
      /\ has_shape 2 [b; vocab_size] probabilities = true.
Proof.
  intros embedding_call rnn_call vocab_size embedding_dim dec_units batch_sz
         rnn_type embedding_matrix self weights x hidden ctx b dc u embedded
         output states Hbuilt Hemb Hrnn Hcount Hout Hctx Hd1 Hd2.
  apply has_shape_shaped in Hout, Hctx.
  destruct (concat_last_shaped b 1 dc u (expand_dims_1 1 ctx) output
              (expand_dims_1_shaped b dc ctx Hctx) Hout) as [joined [Hj Hsj]].
  destruct (dense_1_shaped _ _ _ b (Forward.reshape_rows joined) Hd1
              (reshape_rows_shaped b (dc + u) joined Hsj)) as [y1 [Hy1 Hs1]].
  destruct (dense_1_shaped _ _ _ b y1 Hd2 Hs1) as [y2 [Hy2 Hs2]].
  assert (Hstate : exists state : Encoder.hidden,
             Encoder.states_of state = states
             /\ Forward.decoder_call embedding_call rnn_call self weights x
                                     hidden ctx
                = Ok (Forward.softmax_rows y2, state)).
  { unfold Forward.decoder_call. rewrite Hemb. cbn [bind].
    unfold Decoder.init in Hbuilt.
    destruct (lower rnn_type =? "gru") eqn:Hgru;
      [| destruct (lower rnn_type =? "lstm") eqn:Hlstm ];
      cbn [bind] in Hbuilt; inversion Hbuilt; subst self;
      cbn [Decoder.rnn_type Decoder.rnn] in *;
      rewrite ?Hgru, ?Hlstm, Hrnn; cbn [bind];
      cbn [layer_states] in Hcount;
      destruct states as [| s1 [| s2 [| s3 rest]]];
      try discriminate Hcount;
      cbn [bind]; rewrite Hj; cbn [bind]; cbv zeta;
      rewrite Hy1; cbn [bind]; rewrite Hy2; cbn [bind];
      eexists; (split; [| reflexivity]); reflexivity. }
  destruct Hstate as [state [Hstates Hcall]].
  exists (Forward.softmax_rows y2), state.
  split; [exact Hcall |]. split; [exact Hstates |].
  apply has_shape_shaped, softmax_rows_shaped. exact Hs2.
Qed.

Lemma built_decoder_call_returns_witness :
  exists (probabilities : tensor R 2) (state : Encoder.hidden),
    Forward.decoder_call zero_embedding one_state_rnn gru_decoder
                         gru_decoder_weights [[1]]%Z (Encoder.One (zeros 1 1))
                         [[1; 2]]%R
    = Ok (probabilities, state)
    /\ Encoder.states_of state
       = [List.map (fun _ : list (list R) => [0%R])
                   (tmap (fun _ : Z => repeat 0%R 2) 2 [[1]]%Z)]
    /\ has_shape 2 [1; 3] probabilities = true.
Proof.
  eapply (built_decoder_call_returns zero_embedding one_state_rnn
            3 2 1 1 "gru" None gru_decoder gru_decoder_weights [[1]]%Z
            (Encoder.One (zeros 1 1)) [[1; 2]]%R 1 2 1
            (tmap (fun _ : Z => repeat 0%R 2) 2 [[1]]%Z));
    reflexivity.
Defined.

(** ** The "general" score *)

Lemma dense_2_states :
  forall (inputs units b : nat) (layer : Keras.Dense) (states : tensor R 2),
    Keras.dense_shape inputs units layer = true ->
    shaped 2 [b; inputs] states ->
    Keras.dense 2 layer (expand_dims_1 1 states)
    = Ok (expand_dims_1 1 (List.map (project layer) states))
    /\ shaped 2 [b; units] (List.map (project layer) states : tensor R 2).
Proof.
  intros inputs units b layer states Hfit [Hb Hs].
  destruct (dense_shape_spec _ _ _ Hfit) as [Hk [Hrows Hbias]].
  split.
  - unfold expand_dims_1. rewrite map_map.
    change (Keras.dense 2 layer (List.map (fun v : list R => [v]) states))
      with (mapM (Keras.dense 1 layer) (List.map (fun v : list R => [v]) states)).
    clear Hb. induction Hs as [| v states [Hv _] Hs IH]; [reflexivity |].
    cbn [List.map mapM]. rewrite IH. cbn [bind].
    change (Keras.dense 1 layer [v])
      with (y <- Keras.dense_vector layer v ;; ys <- Ok [] ;; Ok (y :: ys)).
    unfold Keras.dense_vector.
    replace (Nat.eqb (List.length v) (List.length (Keras.kernel layer)))
      with true by (symmetry; apply Nat.eqb_eq; congruence).
    reflexivity.
  - split; [rewrite length_map; exact Hb |].
    apply Forall_map. revert Hs. apply Forall_impl. intros v _.
    split; [apply affine_length; assumption | apply Forall_forall; reflexivity].
Qed.

Lemma general_is_no_other :
  forall s : string,
    (s =? "general") = true ->
    (s =? "additive-concat") = false /\ (s =? "dot-product") = false.
Proof.
  intros s H. apply String.eqb_eq in H. subst s. split; reflexivity.
Qed.

(** X18. With the "general" score, the attention distribution is the softmax
    over the positions of the masked dot products of the encoder outputs
    with the projection of the decoder state by [w1]. *)
Theorem general_attention_value :
  forall (self : Attention.t) (b L d dh : nat) (dec_hidden : tensor R 2)
         (enc_output : tensor R 3) (encoder_pad_mask : tensor Z 2)
         (prev_coverage : option (tensor R 3)),
    (lower (Attention.score_type self) =? "general") = true ->
    Keras.dense_shape dh d (Attention.w1 self) = true ->
    has_shape 3 [b; L; d] enc_output = true ->
    has_shape 2 [b; dh] dec_hidden = true ->
    has_shape 2 [b; L] encoder_pad_mask = true ->
    Attention.attention_score self enc_output (expand_dims_1 1 dec_hidden)
                              encoder_pad_mask prev_coverage
    = Ok (expand_dims_last 2
            (masked_softmax
               (dot_scores enc_output
                           (List.map (project (Attention.w1 self)) dec_hidden))
               encoder_pad_mask)).
Proof.
  intros self b L d dh h enc mask prev Hkind Hfit Henc Hh Hmask.
  apply has_shape_shaped in Henc, Hh, Hmask.
  destruct (dense_2_states dh d b (Attention.w1 self) h Hfit Hh)
    as [Hdense Hproj].
  apply attention_of_scores with (b := b) (L := L);
    [| apply dot_scores_have_shape with (d := d); assumption | exact Hmask].
  unfold Attention.raw_score.
  destruct (general_is_no_other _ Hkind) as [Ha Hd].
  rewrite Ha, Hd, Hkind, Hdense. cbn [bind].
  apply product_scores with (b := b) (L := L) (d := d); assumption.
Qed.

Lemma general_attention_value_witness :
  Attention.attention_score general_layer sample_outputs
                            (expand_dims_1 1 sample_state) no_padding None
  = Ok (expand_dims_last 2
          (masked_softmax
             (dot_scores sample_outputs
                         (List.map (project (Attention.w1 general_layer))
                                   sample_state))
             no_padding)).
Proof.
  apply (general_attention_value general_layer 1 2 2 2); reflexivity.
Defined.

(** ** The path without coverage, on a batch of two *)

(** X19. On valid inputs with at least one position, [call] without coverage
    returns exactly when the batch has two sequences; it then returns the
    attention distribution of the first sequence alone, and weights the
    encoder outputs of both sequences by it.  On any other batch it raises
    [ValueError]. *)
Theorem call_without_coverage_on_valid_inputs :
  forall (self : Attention.t) (b L d dh : nat) (dec_hidden : tensor R 2)
         (enc_output : tensor R 3) (encoder_pad_mask : tensor Z 2)
         (prev_coverage : option (tensor R 3)),
    valid_inputs self b L d dh enc_output (expand_dims_1 1 dec_hidden)
                 encoder_pad_mask None = true ->
    (0 < L)%nat ->
    (b = 2%nat ->
     exists a0 a1 : tensor R 1,
       Attention.attention_score self enc_output (expand_dims_1 1 dec_hidden)
                                 encoder_pad_mask None
       = Ok (expand_dims_last 2 [a0; a1])
       /\ Attention.call self dec_hidden enc_output encoder_pad_mask false
                         prev_coverage
          = Ok (List.map (weighted_sum d a0) enc_output, Rank 1 a0, None))
    /\ (b <> 2%nat ->
        exists msg,
          Attention.call self dec_hidden enc_output encoder_pad_mask false
                         prev_coverage
          = Raise (ValueError msg)).
Proof.
  intros self b L d dh dec_hidden enc mask prev Hvalid HL.
  exact (call_without_coverage self b L d dh dec_hidden enc mask prev Hvalid HL).
Qed.

Lemma call_without_coverage_on_valid_inputs_witness :
  exists a0 a1 : tensor R 1,
    Attention.attention_score dot_product_layer two_sequences
                              (expand_dims_1 1 two_states) two_masks None
    = Ok (expand_dims_last 2 [a0; a1])
    /\ Attention.call dot_product_layer two_states two_sequences two_masks
                      false None
       = Ok (List.map (weighted_sum 2 a0) two_sequences, Rank 1 a0, None).
Proof.
  apply (call_without_coverage_on_valid_inputs dot_product_layer 2 1 2 2
           two_states two_sequences two_masks None);
    [reflexivity | lia | reflexivity].
Defined.

(** ** The case of the cell kind *)

Lemma lower_ascii_idempotent :
  forall c : ascii, lower_ascii (lower_ascii c) = lower_ascii c.
Proof.
  intros [[] [] [] [] [] [] [] []]; reflexivity.
Qed.

Lemma lower_idempotent : forall s : string, lower (lower s) = lower s.
Proof.
  intros s. induction s as [| c s IH]; [reflexivity |].
  cbn [lower]. rewrite lower_ascii_idempotent, IH. reflexivity.
Qed.

(** X21. The cell kind is read whatever the case of its name: a name and its
    lower-case form are accepted or refused together by [Encoder.__init__]
    and [Decoder.__init__], and the layers built have the same recurrent
    layer. *)
Theorem rnn_type_case_is_ignored :
  forall (vocab_size embedding_dim n_units batch_sz : nat) (rnn_type : string)
         (bidirectional : bool) (embedding_matrix : option (tensor R 2)),
    match Encoder.init vocab_size embedding_dim n_units batch_sz rnn_type
                       bidirectional embedding_matrix,
          Encoder.init vocab_size embedding_dim n_units batch_sz
                       (lower rnn_type) bidirectional embedding_matrix with
    | Ok e1, Ok e2 => Encoder.rnn e1 = Encoder.rnn e2
    | Raise x1, Raise x2 => x1 = x2
    | _, _ => False
    end
    /\ match Decoder.init vocab_size embedding_dim n_units batch_sz rnn_type
                          embedding_matrix,
             Decoder.init vocab_size embedding_dim n_units batch_sz
                          (lower rnn_type) embedding_matrix with
       | Ok d1, Ok d2 => Decoder.rnn d1 = Decoder.rnn d2
       | Raise x1, Raise x2 => x1 = x2
       | _, _ => False
       end.
Proof.
  intros vocab_size embedding_dim n_units batch_sz rnn_type bidirectional
         embedding_matrix.
  unfold Encoder.init, Decoder.init. rewrite lower_idempotent.
  destruct (lower rnn_type =? "gru");
    [| destruct (lower rnn_type =? "lstm")];
    split; reflexivity.
Qed.
